(** * CRISPR score analyzer: ranking, matching and lineage reshaping

    A shallow embedding of the tabular core of [src/app.py]:
    [extract_gene_name], [compute_gene_rankings], [filter_genes_by_list]
    and [get_lineage_data], followed by the properties the specification
    states about them.

    Modelling conventions.
    - A Python [str] is a [string]; column names and gene symbols are
      taken to be ASCII text, so [str.upper] and [str.lower] only move
      the letters a-z and A-Z.
    - A pandas float is the rational [Q] it stands for, and a missing
      value (NaN) is [None]; infinite values are left out.  What the program computes itself on
      floats, the percentile, is done as Python does it on doubles:
      each operation gives the exact result rounded to the nearest
      double, ties to even.
    - [mean()] and [std()] are computed inside pandas, and their last
      bits depend on the order in which it sums; they are parameters
      of the model, the class [Statistics], and nothing is assumed of
      them.  The mean of a column is taken to be the same number in
      [sample_vals.mean()] and in [df[gene_cols].mean()].  The examples
      run with each statistic rounded once from its exact value.
    - A [DataFrame] is the list of its columns in column order; the
      tables of the application come out of [pd.read_csv], which makes
      column names unique.
    - [Series.sort_values()] is called with its default [kind]
      ('quicksort'), for which pandas promises an ascending
      rearrangement and nothing about ties; it is a parameter of the
      ranking, constrained by exactly that contract.  The examples run
      with a sort that leaves ties in place, on means without ties. *)

From Stdlib Require Import List Bool Arith Lia ZArith QArith Qminmax Lqa.
From Stdlib Require Import Qabs Qpower.
From Stdlib Require Import String Ascii Permutation Sorted.
Import ListNotations.

Open Scope string_scope.
Open Scope list_scope.

(** ** Python strings *)

Module PyStr.

Definition in_range (lo hi : nat) (c : ascii) : bool :=
  let n := nat_of_ascii c in (lo <=? n)%nat && (n <=? hi)%nat.

Definition is_lower_letter (c : ascii) : bool := in_range 97 122 c.
Definition is_upper_letter (c : ascii) : bool := in_range 65 90 c.
Definition is_digit (c : ascii) : bool := in_range 48 57 c.

Definition upper_char (c : ascii) : ascii :=
  if is_lower_letter c then ascii_of_nat (nat_of_ascii c - 32) else c.

Definition lower_char (c : ascii) : ascii :=
  if is_upper_letter c then ascii_of_nat (nat_of_ascii c + 32) else c.

Fixpoint map_chars (f : ascii -> ascii) (s : string) : string :=
  match s with
  | EmptyString => EmptyString
  | String c s' => String (f c) (map_chars f s')
  end.

(** [s.upper()] and [s.lower()]. *)
Definition upper (s : string) : string := map_chars upper_char s.
Definition lower (s : string) : string := map_chars lower_char s.

(** [s.startswith(p)]. *)
Fixpoint startswith (p s : string) : bool :=
  match p, s with
  | EmptyString, _ => true
  | String a p', String b s' => Ascii.eqb a b && startswith p' s'
  | String _ _, EmptyString => false
  end.

(** [sub in s]. *)
Fixpoint contains (sub s : string) : bool :=
  startswith sub s ||
  match s with
  | EmptyString => false
  | String _ s' => contains sub s'
  end.

(** Longest prefix of [s] whose characters satisfy [p], and the rest. *)
Fixpoint span (p : ascii -> bool) (s : string) : string * string :=
  match s with
  | EmptyString => (EmptyString, EmptyString)
  | String c s' =>
      if p c then let (a, b) := span p s' in (String c a, b)
      else (EmptyString, s)
  end.

Fixpoint all_chars (p : ascii -> bool) (s : string) : bool :=
  match s with
  | EmptyString => true
  | String c s' => p c && all_chars p s'
  end.

(** The class [[A-Za-z0-9_.-]] of the pattern in [extract_gene_name]. *)
Definition is_token_char (c : ascii) : bool :=
  is_upper_letter c || is_lower_letter c || is_digit c ||
  Ascii.eqb c "_" || Ascii.eqb c "." || Ascii.eqb c "-".

(** The class [\s] of [re] on ASCII text: tab, line feed, vertical tab,
    form feed, carriage return, the separators 28-31 and the space. *)
Definition is_space (c : ascii) : bool :=
  in_range 9 13 c || in_range 28 32 c.

End PyStr.

Import PyStr.

(** ** Symbol extraction *)

(** [re.match(r'^([A-Za-z0-9_.-]+)\s*\(', col_name)]: the group is the
    longest run of token characters at the start (a shorter run would be
    followed by a token character, which is neither blank nor a
    parenthesis), then the blanks are skipped and a parenthesis must
    come. *)
Definition extract_gene_name (col_name : string) : string :=
  let (tok, rest) := span is_token_char col_name in
  match tok with
  | EmptyString => col_name
  | String _ _ =>
      match snd (span is_space rest) with
      | String "(" _ => tok
      | _ => col_name
      end
  end.

(** What the regular expression denotes: [col_name] is a non-empty token,
    then blanks, then an opening parenthesis, then anything. *)
Definition re_gene_pattern (col_name tok : string) : Prop :=
  exists ws rest,
    col_name = (tok ++ ws ++ String "(" rest)%string /\
    tok <> EmptyString /\
    all_chars is_token_char tok = true /\
    all_chars is_space ws = true.

(** ** Tables *)

(** A column's values: a numeric dtype holds numbers and NaN ([None]),
    an object dtype holds text and missing entries. *)
Inductive Series : Type :=
| NumSeries (vals : list (option Q))
| ObjSeries (vals : list (option string)).

(** One cell of a table. *)
Inductive Scalar : Type :=
| NumCell (x : option Q)
| ObjCell (x : option string).

Record Column : Type := mkColumn { col_name : string; col_data : Series }.

(** [df_columns] in column order, and [len(df)], the number of rows. *)
Record DataFrame : Type := mkDataFrame { df_columns : list Column; df_len : nat }.

Definition columns (df : DataFrame) : list string := map col_name (df_columns df).

(** [pd.api.types.is_numeric_dtype(series)]. *)
Definition is_numeric_dtype (s : Series) : bool :=
  match s with
  | NumSeries _ => true
  | ObjSeries _ => false
  end.

Fixpoint dropna {A : Type} (vals : list (option A)) : list A :=
  match vals with
  | [] => []
  | Some x :: vals' => x :: dropna vals'
  | None :: vals' => dropna vals'
  end.

(** The non-missing numbers of a column, [series.dropna()]. *)
Definition sample_values (s : Series) : list Q :=
  match s with
  | NumSeries vals => dropna vals
  | ObjSeries _ => []
  end.

Definition cells (s : Series) : list Scalar :=
  match s with
  | NumSeries vals => map NumCell vals
  | ObjSeries vals => map ObjCell vals
  end.

(** [df[name]] for a name of the table: the first column so named. *)
Definition getitem (df : DataFrame) (name : string) : option Series :=
  option_map col_data
    (find (fun c => String.eqb (col_name c) name) (df_columns df)).

(** ** Statistics *)

Definition Qltb (x y : Q) : bool := negb (Qle_bool y x).

(** What the program takes from pandas: [mean()] and [std()] of values
    without NaN, each a double.  (Of no values pandas gives NaN; the
    classifier asks for the statistics of more than 10 values only.) *)
Class Statistics : Type := {
  mean : list Q -> Q;
  std : list Q -> Q
}.

(** ** Floating point *)

(** The nearest integer to [num / den], for [den > 0], the even one
    when two are equally near. *)
Definition round_half_even (num den : Z) : Z :=
  let q := (num / den)%Z in
  match (2 * (num mod den) ?= den)%Z with
  | Lt => q
  | Gt => (q + 1)%Z
  | Eq => if Z.even q then q else (q + 1)%Z
  end.

(** The exponent [k] with [2^k <= a / b < 2^(k+1)], for [a, b > 0]. *)
Definition binade (a b : Z) : Z :=
  let k := (Z.log2 a - Z.log2 b)%Z in
  let below :=
    if (0 <=? k)%Z then (a <? b * 2 ^ k)%Z else (a * 2 ^ (- k) <? b)%Z in
  if below then (k - 1)%Z else k.

(** [n * 2^e] as a rational in lowest terms. *)
Definition scale2 (n e : Z) : Q :=
  Qred (if (0 <=? e)%Z then inject_Z (n * 2 ^ e)
        else Qmake n (Z.to_pos (2 ^ (- e)))).

(** The double nearest to a rational (round to nearest, ties to even):
    53 significant bits, smallest exponent -1074.  The rationals met
    here are far below the largest double, so overflow is left out. *)
Definition round64 (q : Q) : Q :=
  let a := Qnum q in
  let b := Zpos (Qden q) in
  if (a =? 0)%Z then 0
  else
    let m := Z.abs a in
    let e := Z.max (binade m b - 52) (-1074) in
    let n := if (0 <=? e)%Z then round_half_even m (b * 2 ^ e)
             else round_half_even (m * 2 ^ (- e)) b in
    scale2 (Z.sgn a * n) e.

(** Python's [x / y] and [x * y] on floats and on small integers: the
    exact result, rounded once. *)
Definition fdiv (x y : Q) : Q := round64 (Qred (x / y)).
Definition fmul (x y : Q) : Q := round64 (Qred (x * y)).

(** The literal [0.01] as Python reads it. *)
Definition py_0_01 : Q := round64 (1 # 100).

(** The unit roundoff of doubles, 2^-53: the largest relative error of
    one rounding. *)
Definition unit_roundoff : Q := 1 # 9007199254740992.

(** ** Column classification *)

(** The test on the statistics: [-5 < mean_val < 2 and std_val > 0.01]. *)
Definition stat_test {stats : Statistics} (sample_vals : list Q) : bool :=
  let mean_val := mean sample_vals in
  let std_val := std sample_vals in
  Qltb (-5) mean_val && Qltb mean_val 2 && Qltb py_0_01 std_val.

(** The two outer conditions of the loop body: a column that fails one of
    them goes to the metadata without its mean and deviation being
    looked at. *)
Definition reaches_stat_test (s : Series) : bool :=
  is_numeric_dtype s && (10 <? List.length (sample_values s))%nat.

(** The body of the loop of [compute_gene_rankings] for one column:
    [true] when the column is appended to [gene_cols]. *)
Definition is_gene_col {stats : Statistics} (s : Series) : bool :=
  if is_numeric_dtype s then
    let sample_vals := sample_values s in
    if (10 <? List.length sample_vals)%nat then stat_test sample_vals
    else false
  else false.

(** The loop [for col in df.columns]: the pair [(gene_cols, meta_cols)].
    Column names are unique, so a name and its column are carried
    together. *)
Fixpoint classify_columns {stats : Statistics} (cols : list Column)
  : list Column * list Column :=
  match cols with
  | [] => ([], [])
  | col :: cols' =>
      let (gene_cols, meta_cols) := classify_columns cols' in
      if is_gene_col (col_data col) then (col :: gene_cols, meta_cols)
      else (gene_cols, col :: meta_cols)
  end.

Definition gene_cols {stats : Statistics} (df : DataFrame) : list Column :=
  fst (classify_columns (df_columns df)).

Definition meta_cols {stats : Statistics} (df : DataFrame) : list Column :=
  snd (classify_columns (df_columns df)).

(** ** Ranking *)

Record GeneRankEntry : Type := mkEntry {
  gene_raw : string;
  gene : string;
  mean_score : Q;
  rank : nat;
  percentile : Q;
  gene_upper : string
}.

(** A pandas Series of means indexed by column name. *)
Definition ScoreSeries : Type := list (string * Q).

(** [df[gene_cols].mean()]: the mean of each selected column without
    its missing values. *)
Definition column_means {stats : Statistics} (cols : list Column) : ScoreSeries :=
  map (fun c => (col_name c, mean (sample_values (col_data c)))) cols.

Definition Qnat (n : nat) : Q := inject_Z (Z.of_nat n).

(** One row of the ranking of [n] columns: the column [col] of mean [m]
    at position [i].  The percentile is [(i / len(mean_scores)) * 100],
    a division and a multiplication of doubles. *)
Definition ranking_row (n i : nat) (col : string) (m : Q) : GeneRankEntry :=
  {| gene_raw := col;
     gene := extract_gene_name col;
     mean_score := m;
     rank := i;
     percentile := fmul (fdiv (Qnat i) (Qnat n)) 100;
     gene_upper := upper (extract_gene_name col) |}.

(** The [pd.DataFrame({...})] of the ranking, row by row, with the
    [gene_upper] column that is added next; the positions are
    [range(1, len(mean_scores) + 1)]. *)
Definition build_rankings (mean_scores : ScoreSeries) : list GeneRankEntry :=
  let n := List.length mean_scores in
  map (fun '(i, (col, m)) => ranking_row n i col m)
      (combine (seq 1 n) mean_scores).

(** The same rows, built from position [i] on. *)
Fixpoint rows_from (n i : nat) (s : ScoreSeries) : list GeneRankEntry :=
  match s with
  | [] => []
  | (col, m) :: s' => ranking_row n i col m :: rows_from n (S i) s'
  end.

(** Rows come in increasing rank, and in the order of the sorted means. *)
Definition row_before (r1 r2 : GeneRankEntry) : Prop :=
  (rank r1 < rank r2)%nat /\ mean_score r1 <= mean_score r2.

(** The message returned when no score column is found. *)
Definition no_gene_cols_msg : string :=
  "未找到符合CRISPR score特征的数值列".

Section Ranking.

Context {stats : Statistics}.

(** [Series.sort_values()] with its defaults. *)
Variable sort_values : ScoreSeries -> ScoreSeries.

(** The triple [(rankings, n_cell_lines, error_msg)]. *)
Definition compute_gene_rankings (df : DataFrame)
  : option (list GeneRankEntry) * nat * option string :=
  match gene_cols df with
  | [] => (None, 0%nat, Some no_gene_cols_msg)
  | _ :: _ =>
      let mean_scores := sort_values (column_means (gene_cols df)) in
      (Some (build_rankings mean_scores), df_len df, None)
  end.

End Ranking.

(** What pandas documents of [sort_values]: the result holds the same
    entries, in ascending order of value. *)
Definition le_score (a b : string * Q) : Prop := snd a <= snd b.

Definition sort_values_contract (sort_values : ScoreSeries -> ScoreSeries) : Prop :=
  forall s, Permutation (sort_values s) s /\ StronglySorted le_score (sort_values s).

(** A sort that meets the contract: insertion of each entry into the
    sorted rest, in front of the first entry [y] with [before x y]. *)
Fixpoint insert_by (before : Q -> Q -> bool) (x : string * Q) (s : ScoreSeries)
  : ScoreSeries :=
  match s with
  | [] => [x]
  | y :: s' =>
      if before (snd x) (snd y) then x :: s else y :: insert_by before x s'
  end.

Fixpoint sort_by (before : Q -> Q -> bool) (s : ScoreSeries) : ScoreSeries :=
  match s with
  | [] => []
  | x :: s' => insert_by before x (sort_by before s')
  end.

(** Equal values keep their order. *)
Definition sort_keeping_ties : ScoreSeries -> ScoreSeries := sort_by Qle_bool.

(** ** Matching *)

(** [a.upper() == b.upper()]. *)
Definition ci_eqb (a b : string) : bool := String.eqb (upper a) (upper b).

(** [x in l], also [Series.isin] on one value. *)
Definition str_in (x : string) (l : list string) : bool :=
  existsb (String.eqb x) l.

(** The pair [(matched_genes, not_found)].  The set [matched_upper] is
    only asked for membership, so the list of its elements stands for
    it. *)
Definition filter_genes_by_list (gene_rank_df : list GeneRankEntry)
    (gene_list : list string) : list string * list string :=
  let gene_list_upper := map upper gene_list in
  let matched_mask := fun r => str_in (gene_upper r) gene_list_upper in
  let matched_genes := map gene (filter matched_mask gene_rank_df) in
  let matched_upper := map gene_upper (filter matched_mask gene_rank_df) in
  let not_found :=
    filter (fun g => negb (str_in (upper g) matched_upper)) gene_list in
  (matched_genes, not_found).

(** ** Lineage reshaping *)

Record LineageRecord : Type := mkLineageRecord {
  lineage : Scalar;
  crispr_score : Scalar;
  lr_gene : string
}.

(** The condition of the search loop of [get_lineage_data]. *)
Definition is_lineage_name (col : string) : bool :=
  contains "lineage" (lower col) && negb (contains "sub" (lower col)).

(** The loop with its [break]: the first name that passes. *)
Definition find_lineage_col (cols : list string) : option string :=
  find is_lineage_name cols.

(** A Python dict from text to text: keys in insertion order, a second
    assignment to a key replaces its value. *)
Definition Dict : Type := list (string * string).

Fixpoint dict_set (k v : string) (d : Dict) : Dict :=
  match d with
  | [] => [(k, v)]
  | (k', v') :: d' =>
      if String.eqb k k' then (k, v) :: d' else (k', v') :: dict_set k v d'
  end.

Fixpoint dict_get (k : string) (d : Dict) : option string :=
  match d with
  | [] => None
  | (k', v) :: d' => if String.eqb k k' then Some v else dict_get k d'
  end.

Definition dict_mem (k : string) (d : Dict) : bool :=
  match dict_get k d with Some _ => true | None => false end.

Definition dict_get_default (k default : string) (d : Dict) : string :=
  match dict_get k d with Some v => v | None => default end.

(** [{c.upper(): c for c in df.columns}]. *)
Definition df_cols_upper (cols : list string) : Dict :=
  fold_left (fun d c => dict_set (upper c) c d) cols [].

(** [df[[lineage_col, gene]]] with the columns renamed and the [gene]
    column added: one record per row. *)
Definition lineage_frame (df : DataFrame) (lineage_col gene : string)
  : list LineageRecord :=
  match getitem df lineage_col, getitem df gene with
  | Some l, Some g =>
      map (fun '(lv, sv) =>
             {| lineage := lv; crispr_score := sv; lr_gene := gene |})
          (combine (cells l) (cells g))
  | _, _ => []
  end.

(** The long-format records, or [None]; [pd.concat(result,
    ignore_index=True)] puts the frames one after the other. *)
Definition get_lineage_data (df : DataFrame) (genes : list string)
  : option (list LineageRecord) :=
  match find_lineage_col (columns df) with
  | None => None
  | Some lineage_col =>
      let df_cols_upper := df_cols_upper (columns df) in
      let actual_genes :=
        map (fun g => dict_get_default (upper g) g df_cols_upper)
            (filter (fun g => dict_mem (upper g) df_cols_upper) genes) in
      match actual_genes with
      | [] => None
      | _ :: _ =>
          let result :=
            flat_map (fun gene =>
                        if str_in gene (columns df)
                        then [lineage_frame df lineage_col gene]
                        else [])
                     actual_genes in
          match result with
          | [] => None
          | _ :: _ => Some (List.concat result)
          end
      end
  end.

(** ** Statistics rounded once *)

Definition Qsum (xs : list Q) : Q := fold_right Qplus 0 xs.

Definition Qlen (xs : list Q) : Q := inject_Z (Z.of_nat (List.length xs)).

(** The mean as a rational. *)
Definition exact_mean (xs : list Q) : Q := Qsum xs / Qlen xs.

(** The square of the deviation that pandas computes, with [ddof=1], as
    a rational: the squared distances from the mean, summed, over
    [n - 1]. *)
Definition exact_variance (xs : list Q) : Q :=
  Qsum (map (fun x => (x - exact_mean xs) * (x - exact_mean xs)) xs)
  / (Qlen xs - 1).

(** The double nearest to the square root of a rational [q >= 0]. *)
Definition sqrt64 (q : Q) : Q :=
  let a := Qnum q in
  let b := Zpos (Qden q) in
  if (a <=? 0)%Z then 0
  else
    let e := (binade a b / 2 - 52)%Z in
    let num := if (0 <=? e)%Z then a else (a * 4 ^ (- e))%Z in
    let den := if (0 <=? e)%Z then (b * 4 ^ e)%Z else b in
    let n := Z.sqrt (num / den) in
    let up :=
      match (4 * num ?= (4 * n * n + 4 * n + 1) * den)%Z with
      | Lt => false
      | Gt => true
      | Eq => Z.odd n
      end in
    scale2 (if up then n + 1 else n)%Z e.

(** The statistics of the examples: the double nearest to the exact
    mean, and the double nearest to the square root of the exact
    variance.  What pandas returns can differ from these in the last
    bits; in the example columns the sums and the means are doubles
    and the deviations are 0 or far above 0.01, so the examples do not
    depend on them. *)
#[global] Instance rounded_statistics : Statistics :=
  {| mean := fun xs => round64 (Qred (exact_mean xs));
     std := fun xs => sqrt64 (Qred (exact_variance xs)) |}.

(** ** Sample tables *)

Definition nums (xs : list Q) : Series := NumSeries (map Some xs).
Definition labels (xs : list string) : Series := ObjSeries (map Some xs).

(** Scores of eleven cell lines: mean -2, mean 1/2 and mean 0.  Their
    sums are small multiples of 1/2, so they are exact in whatever
    order they are added. *)
Definition myc_scores : list Q := [-2; -3; -1; -2; -3; -1; -2; -3; -1; -2; -2].
Definition pten_scores : list Q := [1; 0; 1; 0; 1; 0; 1; 0; 1; 0; 1 # 2].
Definition tp53_scores : list Q := [1; -1; 1; -1; 1; -1; 1; -1; 1; -1; 0].

Definition tissue : list string :=
  ["Lung"; "Skin"; "Lung"; "Skin"; "Lung"; "Skin"; "Lung"; "Skin"; "Lung";
   "Skin"; "Lung"].

(** A table in the DepMap layout, gene columns named "SYMBOL (ID)". *)
Definition depmap_table : DataFrame :=
  {| df_columns :=
       [ mkColumn "Lineage" (labels tissue);
         mkColumn "Lineage_Sub_type" (labels tissue);
         mkColumn "PTEN" (nums pten_scores);
         mkColumn "MYC (4609)" (nums myc_scores) ];
     df_len := 11 |}.

(** Three score columns and nothing else. *)
Definition three_gene_table : DataFrame :=
  {| df_columns :=
       [ mkColumn "PTEN" (nums pten_scores);
         mkColumn "TP53 (7157)" (nums tp53_scores);
         mkColumn "MYC (4609)" (nums myc_scores) ];
     df_len := 11 |}.

(** Tables without any score column, with one and with two columns. *)
Definition labels_table : DataFrame :=
  {| df_columns := [ mkColumn "Lineage" (labels tissue) ]; df_len := 11 |}.

Definition labels_table2 : DataFrame :=
  {| df_columns :=
       [ mkColumn "Lineage" (labels tissue); mkColumn "Count" (nums [1; 2; 3]) ];
     df_len := 11 |}.

(** The columns of the example of the specification with the
    sub-lineage in front, its values differing from the lineage. *)
Definition subtype : list string :=
  ["NSCLC"; "Melanoma"; "SCLC"; "Melanoma"; "NSCLC"; "Melanoma"; "SCLC";
   "Melanoma"; "NSCLC"; "Melanoma"; "SCLC"].

Definition subtype_first_table : DataFrame :=
  {| df_columns :=
       [ mkColumn "Lineage_Sub_type" (labels subtype);
         mkColumn "Lineage" (labels tissue);
         mkColumn "MYC (4609)" (nums myc_scores) ];
     df_len := 11 |}.

(** A table without a lineage column. *)
Definition scores_only_table : DataFrame :=
  {| df_columns := [ mkColumn "PTEN" (nums pten_scores) ]; df_len := 11 |}.

(** A numeric column with exactly ten values, all present. *)
Definition ten_scores : Series := nums [-2; -3; -1; -2; -3; -1; -2; -3; -1; -2].

(** Eleven identical values, and eleven values of mean 5. *)
Definition flat_scores : Series := nums (repeat (-1) 11).
Definition high_scores : Series := nums [5; 6; 4; 5; 6; 4; 5; 6; 4; 5; 5].

(** The ranking of [depmap_table] under the sort that keeps ties. *)
Definition depmap_ranking : list GeneRankEntry :=
  build_rankings (sort_keeping_ties (column_means (gene_cols depmap_table))).

(** A ranking that holds MYC and PTEN. *)
Definition sample_ranking : list GeneRankEntry :=
  build_rankings [("MYC (4609)", -2); ("TP53 (7157)", 0); ("PTEN", 1 # 2)].

(** ** The statements of the specification that the code does not meet *)

(** The skip rule of the classifier with the bound of the
    specification: fewer than 10 values. *)
Definition skip_rule_as_specified : Prop :=
  forall s : Series,
    reaches_stat_test s = false <->
    (is_numeric_dtype s = false \/ (List.length (sample_values s) < 10)%nat).

(** Percentile 100/N at rank 1, be it the exact quotient or the double
    [100 / N]. *)
Definition percentile_at_rank_1_as_specified {stats : Statistics} : Prop :=
  forall sort_values, sort_values_contract sort_values ->
  forall df rk n msg,
    compute_gene_rankings sort_values df = (Some rk, n, msg) ->
    forall r, In r rk -> rank r = 1%nat ->
      percentile r == 100 / Qnat (List.length rk) \/
      percentile r == fdiv 100 (Qnat (List.length rk)).

(** Columns of equal mean appear in the ranking in their column order. *)
Definition ties_keep_column_order {stats : Statistics}
    (sort_values : ScoreSeries -> ScoreSeries) : Prop :=
  forall df rk n msg,
    compute_gene_rankings sort_values df = (Some rk, n, msg) ->
    forall c1 ca c2 cb c3,
      gene_cols df = c1 ++ ca :: c2 ++ cb :: c3 ->
      mean (sample_values (col_data ca)) == mean (sample_values (col_data cb)) ->
      exists k1 k2 k3,
        map gene_raw rk = k1 ++ col_name ca :: k2 ++ col_name cb :: k3.

(** The failure value lets its receiver read off the column count of the
    table. *)
Definition failure_carries_column_count {stats : Statistics} : Prop :=
  forall sort_values,
  exists read_count : option (list GeneRankEntry) * nat * option string -> nat,
    forall df,
      gene_cols df = [] ->
      read_count (compute_gene_rankings sort_values df)
      = List.length (df_columns df).

(** ** The calling script *)

(** The newline character. *)
Definition nl : ascii := "010"%char.

(** [s.replace(a, b)] for one-character [a] and [b]. *)
Definition replace_char (a b : ascii) (s : string) : string :=
  map_chars (fun c => if Ascii.eqb c a then b else c) s.

(** [s.split(sep)] for a one-character separator: the pieces between
    the separators, of which there is always at least one. *)
Fixpoint split_on (sep : ascii) (s : string) : list string :=
  match s with
  | EmptyString => [EmptyString]
  | String c s' =>
      if Ascii.eqb c sep then EmptyString :: split_on sep s'
      else match split_on sep s' with
           | h :: t => String c h :: t
           | [] => [String c EmptyString]
           end
  end.

(** [s.lstrip()], [s.rstrip()] and [s.strip()]: blanks are the
    characters of [str.isspace], on ASCII those of [is_space]. *)
Definition lstrip (s : string) : string := snd (span is_space s).

Fixpoint rstrip (s : string) : string :=
  match s with
  | EmptyString => EmptyString
  | String c s' =>
      match rstrip s' with
      | EmptyString => if is_space c then EmptyString else String c EmptyString
      | String _ _ as r => String c r
      end
  end.

Definition strip (s : string) : string := rstrip (lstrip s).

(** The truth value of a string: it is not empty. *)
Definition nonempty (s : string) : bool :=
  match s with
  | EmptyString => false
  | String _ _ => true
  end.

(** [[g.strip() for g in text.split('\n') if g.strip()]]. *)
Definition clean_lines (text : string) : list string :=
  map strip (filter (fun g => nonempty (strip g)) (split_on nl text)).

(** The gene list of the ranking tab: commas and spaces count as line
    breaks. *)
Definition genes_of_interest (gene_input : string) : list string :=
  clean_lines (replace_char " " nl (replace_char "," nl gene_input)).

(** The gene lists of the box-plot and annotation tabs: only commas
    count as line breaks. *)
Definition genes_for_box (gene_input : string) : list string :=
  clean_lines (replace_char "," nl gene_input).

(** The gene list of an uploaded text file. *)
Definition genes_from_txt (content : string) : list string :=
  clean_lines content.

(** ["\n".join(genes)] and the like. *)
Definition join (sep : string) (genes : list string) : string :=
  String.concat sep genes.

(** The check of [download_from_gdrive] on the first line of the
    downloaded file. *)
Definition is_html_page (first_line : string) : bool :=
  contains "<html" (lower first_line) || contains "<!doctype" (lower first_line).

(** [(gene_rankings['mean_score'] < -0.5).sum()]. *)
Definition is_essential (x : Q) : bool := Qltb x (- (1 # 2)).

Definition essential_count (gene_rankings : list GeneRankEntry) : nat :=
  List.length (filter (fun r => is_essential (mean_score r)) gene_rankings).

(** [series.min()] and [series.max()] of numbers without NaN; of no
    numbers pandas gives NaN. *)
Definition series_min (xs : list Q) : option Q :=
  match xs with
  | [] => None
  | x :: xs' => Some (fold_left Qmin xs' x)
  end.

Definition series_max (xs : list Q) : option Q :=
  match xs with
  | [] => None
  | x :: xs' => Some (fold_left Qmax xs' x)
  end.

(** [gene_rank_df[gene_rank_df['gene'].isin(genes)]]. *)
Definition isin_gene (gene_rank_df : list GeneRankEntry) (genes : list string)
  : list GeneRankEntry :=
  filter (fun r => str_in (gene r) genes) gene_rank_df.

(** [gene_rank_df[gene_rank_df['gene_upper'] == reference.upper()]], the
    rows of a reference gene in both plots. *)
Definition reference_rows (gene_rank_df : list GeneRankEntry)
    (reference : string) : list GeneRankEntry :=
  filter (fun r => String.eqb (gene_upper r) (upper reference)) gene_rank_df.

(** The two layers of [create_multilayer_rank_plot]. *)
Definition bg_only (background_genes highlight_genes : list string) : list string :=
  filter (fun g => negb (str_in g highlight_genes)) background_genes.

Definition bg_df (gene_rank_df : list GeneRankEntry)
    (background_genes highlight_genes : list string) : list GeneRankEntry :=
  isin_gene gene_rank_df (bg_only background_genes highlight_genes).

Definition hl_df (gene_rank_df : list GeneRankEntry)
    (highlight_genes : list string) : list GeneRankEntry :=
  isin_gene gene_rank_df highlight_genes.

(** [lineage_data[lineage_data['gene'] == gene]], the records of one
    panel of [create_lineage_boxplot]. *)
Definition gene_data (lineage_data : list LineageRecord) (gene : string)
  : list LineageRecord :=
  filter (fun rec => String.eqb (lr_gene rec) gene) lineage_data.

(** Every column of a table has one cell per row. *)
Definition table_ok (df : DataFrame) : Prop :=
  Forall (fun c => List.length (cells (col_data c)) = df_len df) (df_columns df).

(** A gene name as one would type it: not empty, without blanks and
    commas. *)
Definition is_name_char (c : ascii) : bool :=
  negb (is_space c) && negb (Ascii.eqb c ",").

Definition clean_name (g : string) : bool :=
  nonempty g && all_chars is_name_char g.

(** Some character of [s] satisfies [p]. *)
Definition has_char (p : ascii -> bool) (s : string) : bool :=
  negb (all_chars (fun c => negb (p c)) s).

(** A table whose score columns are all named "SYMBOL (ID)", and its
    ranking. *)
Definition symbol_table : DataFrame :=
  {| df_columns :=
       [ mkColumn "Lineage" (labels tissue);
         mkColumn "TP53 (7157)" (nums pten_scores);
         mkColumn "MYC (4609)" (nums myc_scores) ];
     df_len := 11 |}.

Definition symbol_ranking : list GeneRankEntry :=
  build_rankings (sort_keeping_ties (column_means (gene_cols symbol_table))).

(** * Properties *)

(** ** Strings *)

Section StringFacts.

Variable p : ascii -> bool.

Lemma span_split (s : string) :
  s = (fst (span p s) ++ snd (span p s))%string.
Proof.
  induction s as [|c s IH]; simpl; [reflexivity|].
  destruct (p c); [|reflexivity].
  destruct (span p s) as [a b]; simpl in *. now rewrite <- IH.
Qed.

Lemma span_all (s : string) : all_chars p (fst (span p s)) = true.
Proof.
  induction s as [|c s IH]; simpl; [reflexivity|].
  destruct (p c) eqn:Hc; [|reflexivity].
  destruct (span p s) as [a b]; simpl in *. now rewrite Hc.
Qed.

(** A run of [p]-characters followed by a character outside [p] is
    exactly what [span] cuts off. *)
Lemma span_stop (a : string) (c : ascii) (r : string) :
  all_chars p a = true -> p c = false ->
  span p (a ++ String c r) = (a, String c r).
Proof.
  intros Ha Hc. induction a as [|x a IH]; simpl in *.
  - now rewrite Hc.
  - apply andb_true_iff in Ha as [Hx Ha]. rewrite Hx, (IH Ha). reflexivity.
Qed.

End StringFacts.

Lemma startswith_spec (q s : string) :
  startswith q s = true <-> exists r, s = (q ++ r)%string.
Proof.
  revert s. induction q as [|a q IH]; intros s; simpl.
  - split; [intros _; now exists s | reflexivity].
  - destruct s as [|b s].
    + split; [discriminate | intros [r Hr]; discriminate].
    + rewrite andb_true_iff, Ascii.eqb_eq, IH. split.
      * intros [-> [r ->]]. now exists r.
      * intros [r Hr]. injection Hr as -> ->. split; [reflexivity | now exists r].
Qed.

(** [sub in s] holds exactly when [s] is some text, then [sub], then
    some text. *)
Lemma contains_spec (sub s : string) :
  contains sub s = true <-> exists a b, s = (a ++ sub ++ b)%string.
Proof.
  induction s as [|c s IH]; simpl; rewrite orb_true_iff, startswith_spec.
  - split.
    + intros [[r Hr] | Hf]; [|discriminate]. now exists EmptyString, r.
    + intros [a [b Hab]]. left. destruct a; simpl in Hab; [now exists b | discriminate].
  - rewrite IH. split.
    + intros [[r Hr] | [a [b Hab]]].
      * now exists EmptyString, r.
      * exists (String c a), b. simpl. now rewrite Hab.
    + intros [a [b Hab]]. destruct a as [|x a]; simpl in Hab.
      * left. now exists b.
      * right. injection Hab as _ ->. now exists a, b.
Qed.

Lemma space_not_token (c : ascii) : is_space c = true -> is_token_char c = false.
Proof.
  destruct c as [[] [] [] [] [] [] [] []]; vm_compute; congruence.
Qed.

Lemma all_space_head (ws : string) (c : ascii) (r : string) :
  all_chars is_space ws = true ->
  exists c' r', (ws ++ String c r)%string = String c' r' /\
                (is_space c' = true \/ c' = c).
Proof.
  destruct ws as [|x ws]; simpl; intros H.
  - exists c, r. auto.
  - apply andb_true_iff in H as [Hx _]. exists x, (ws ++ String c r)%string. auto.
Qed.

(** The pattern of [extract_gene_name] fixes the result. *)
Lemma extract_of_pattern (col tok : string) :
  re_gene_pattern col tok -> extract_gene_name col = tok.
Proof.
  intros (ws & rest & -> & Hne & Htok & Hws).
  unfold extract_gene_name.
  destruct (all_space_head ws "(" rest Hws) as (c' & r' & Heq & Hc').
  rewrite Heq, span_stop; trivial.
  - rewrite <- Heq, span_stop by (trivial; reflexivity). simpl.
    destruct tok; [congruence | reflexivity].
  - destruct Hc' as [Hs | ->]; [now apply space_not_token | reflexivity].
Qed.

(** Without the pattern the name comes back as it is. *)
Lemma extract_without_pattern (col : string) :
  (forall tok, ~ re_gene_pattern col tok) -> extract_gene_name col = col.
Proof.
  intros Hno. unfold extract_gene_name.
  pose proof (span_split is_token_char col) as Hsplit.
  pose proof (span_all is_token_char col) as Htok.
  destruct (span is_token_char col) as [tok rest]; simpl in *.
  destruct tok as [|t tok]; [reflexivity|].
  pose proof (span_split is_space rest) as Hsplit'.
  pose proof (span_all is_space rest) as Hws.
  destruct (span is_space rest) as [ws rest']; simpl in *.
  destruct rest' as [|c rest']; [reflexivity|].
  destruct (Ascii.eqb_spec c "("); [|destruct c as [[] [] [] [] [] [] [] []]; congruence].
  subst c. exfalso. apply (Hno (String t tok)).
  exists ws, rest'. rewrite Hsplit at 1. rewrite Hsplit' at 1.
  repeat split; [discriminate | exact Htok | exact Hws].
Qed.

Lemma pattern_has_paren (col tok : string) :
  re_gene_pattern col tok -> contains "(" col = true.
Proof.
  intros (ws & rest & -> & _). apply contains_spec.
  exists (tok ++ ws)%string, rest.
  clear. induction tok; simpl; [reflexivity | now rewrite IHtok].
Qed.

(** ** Symbol extraction (C6) *)

(** C6: the display symbol is the leading token of letters,
    digits, dots, dashes and underscores that is followed, after optional
    blanks, by an opening parenthesis; a name without this pattern is
    returned unchanged.  So ["MYC (4609)"] gives ["MYC"], ["PTEN"] gives
    ["PTEN"] and ["ABC-1 (100)"] gives ["ABC-1"]. *)
Theorem extract_gene_name_spec :
  (forall col tok, re_gene_pattern col tok -> extract_gene_name col = tok) /\
  (forall col, (forall tok, ~ re_gene_pattern col tok) ->
               extract_gene_name col = col) /\
  extract_gene_name "MYC (4609)" = "MYC" /\
  extract_gene_name "PTEN" = "PTEN" /\
  extract_gene_name "ABC-1 (100)" = "ABC-1".
Proof.
  split; [exact extract_of_pattern|].
  split; [exact extract_without_pattern|].
  repeat split; reflexivity.
Qed.

Lemma extract_gene_name_spec_witness :
  re_gene_pattern "ABC-1 (100)" "ABC-1" /\
  extract_gene_name "ABC-1 (100)" = "ABC-1" /\
  (forall tok, ~ re_gene_pattern "PTEN" tok) /\
  extract_gene_name "PTEN" = "PTEN".
Proof.
  assert (Hpat : re_gene_pattern "ABC-1 (100)" "ABC-1").
  { exists " ", "100)". repeat split. discriminate. }
  assert (Hno : forall tok, ~ re_gene_pattern "PTEN" tok).
  { intros tok H. apply pattern_has_paren in H. vm_compute in H. discriminate. }
  split; [exact Hpat|].
  split; [exact (proj1 extract_gene_name_spec _ _ Hpat)|].
  split; [exact Hno|].
  exact (proj1 (proj2 extract_gene_name_spec) _ Hno).
Defined.

(** ** Lineage column names *)

Lemma is_lineage_name_spec (c : string) :
  is_lineage_name c = true <->
  (exists a b, lower c = (a ++ "lineage" ++ b)%string) /\
  ~ (exists a b, lower c = (a ++ "sub" ++ b)%string).
Proof.
  unfold is_lineage_name.
  rewrite andb_true_iff, negb_true_iff, <- not_true_iff_false, !contains_spec.
  reflexivity.
Qed.

Lemma find_first_spec {A : Type} (f : A -> bool) (l : list A) (x : A) :
  find f l = Some x <->
  exists pre post, l = pre ++ x :: post /\ f x = true /\
                   forall y, In y pre -> f y = false.
Proof.
  induction l as [|a l IH]; simpl.
  - split; [discriminate|]. intros (pre & post & H & _). now destruct pre.
  - destruct (f a) eqn:Ha.
    + split.
      * intros [= ->]. exists [], l. repeat split; trivial. intros y [].
      * intros (pre & post & H & Hx & Hpre). destruct pre as [|b pre].
        -- now injection H as ->.
        -- injection H as -> _. rewrite (Hpre b) in Ha; [discriminate | now left].
    + rewrite IH. split.
      * intros (pre & post & -> & Hx & Hpre). exists (a :: pre), post.
        repeat split; trivial. intros y [<- | Hy]; auto.
      * intros (pre & post & H & Hx & Hpre). destruct pre as [|b pre].
        -- injection H as -> _. congruence.
        -- injection H as _ ->. exists pre, post. repeat split; trivial.
           intros y Hy. apply Hpre. now right.
Qed.

Lemma find_lineage_col_none (cols : list string) :
  find_lineage_col cols = None <->
  forall c, In c cols -> is_lineage_name c = false.
Proof.
  unfold find_lineage_col. split.
  - intros H c Hc. exact (find_none _ _ H c Hc).
  - intros H. destruct (find is_lineage_name cols) as [c|] eqn:Hf; [|reflexivity].
    apply find_some in Hf as [Hin Hc]. rewrite (H c Hin) in Hc. discriminate.
Qed.

(** ** Statistics *)

Lemma Qltb_iff (x y : Q) : Qltb x y = true <-> x < y.
Proof.
  unfold Qltb. rewrite negb_true_iff, <- not_true_iff_false, Qle_bool_iff.
  split; [apply Qnot_le_lt | apply Qlt_not_le].
Qed.

Lemma Qlen_cons (x : Q) (xs : list Q) : Qlen (x :: xs) == Qlen xs + 1.
Proof.
  unfold Qlen. simpl List.length. rewrite Nat2Z.inj_succ, <- Z.add_1_r.
  rewrite inject_Z_plus. reflexivity.
Qed.

Lemma Qlen_pos (xs : list Q) : xs <> [] -> 0 < Qlen xs.
Proof.
  destruct xs as [|x xs]; [congruence | intros _].
  unfold Qlen, Qlt. simpl. lia.
Qed.

Lemma Qsum_const (xs : list Q) (v : Q) :
  (forall x, In x xs -> x == v) -> Qsum xs == Qlen xs * v.
Proof.
  induction xs as [|x xs IH]; intros H.
  - unfold Qlen. simpl. ring.
  - assert (Hx : x == v) by (apply H; now left).
    assert (Hxs : Qsum xs == Qlen xs * v) by (apply IH; intros y Hy; apply H; now right).
    rewrite Qlen_cons. simpl. rewrite Hxs, Hx. ring.
Qed.

Lemma Qsum_zero (xs : list Q) :
  (forall x, In x xs -> x == 0) -> Qsum xs == 0.
Proof.
  intros H. rewrite (Qsum_const xs 0 H). ring.
Qed.

Lemma exact_mean_const (xs : list Q) (v : Q) :
  xs <> [] -> (forall x, In x xs -> x == v) -> exact_mean xs == v.
Proof.
  intros Hne H. unfold exact_mean. rewrite (Qsum_const xs v H).
  pose proof (Qlen_pos xs Hne) as Hpos. field. intros H0. rewrite H0 in Hpos. now apply Qlt_irrefl in Hpos.
Qed.

(** Identical values have no spread. *)
Lemma exact_variance_const (xs : list Q) (v : Q) :
  (forall x, In x xs -> x == v) -> exact_variance xs == 0.
Proof.
  intros H. unfold exact_variance.
  destruct xs as [|x0 xs]; [reflexivity|].
  assert (Hm : exact_mean (x0 :: xs) == v)
    by (apply exact_mean_const; [discriminate | exact H]).
  rewrite Qsum_zero; [reflexivity|].
  intros y Hy. apply in_map_iff in Hy as (x & <- & Hx).
  rewrite Hm, (H x Hx). ring.
Qed.

(** Rounded once, the deviation of identical values is 0. *)
Lemma rounded_std_const (xs : list Q) (v : Q) :
  (forall x, In x xs -> x == v) -> @std rounded_statistics xs = 0.
Proof.
  intros H. change (sqrt64 (Qred (exact_variance xs)) = 0).
  rewrite (Qred_complete _ 0 (exact_variance_const xs v H)). reflexivity.
Qed.

(** ** Column classification (C3, C5) *)

Lemma is_gene_col_split {stats : Statistics} (s : Series) :
  is_gene_col s = reaches_stat_test s && stat_test (sample_values s).
Proof.
  unfold is_gene_col, reaches_stat_test.
  destruct (is_numeric_dtype s); [|reflexivity].
  now destruct (10 <? List.length (sample_values s))%nat.
Qed.

Lemma reaches_stat_test_iff (s : Series) :
  reaches_stat_test s = true <->
  is_numeric_dtype s = true /\ (10 < List.length (sample_values s))%nat.
Proof.
  unfold reaches_stat_test. now rewrite andb_true_iff, Nat.ltb_lt.
Qed.

Lemma stat_test_iff {stats : Statistics} (xs : list Q) :
  stat_test xs = true <->
  -5 < mean xs /\ mean xs < 2 /\ py_0_01 < std xs.
Proof.
  unfold stat_test. rewrite !andb_true_iff, !Qltb_iff. tauto.
Qed.

Lemma classify_columns_spec {stats : Statistics} (cols : list Column) (c : Column) :
  (In c (fst (classify_columns cols)) <->
   In c cols /\ is_gene_col (col_data c) = true) /\
  (In c (snd (classify_columns cols)) <->
   In c cols /\ is_gene_col (col_data c) = false).
Proof.
  induction cols as [|x cols [IHg IHm]]; simpl; [tauto|].
  destruct (classify_columns cols) as [g m]; simpl in *.
  destruct (is_gene_col (col_data x)) eqn:Hx; simpl; rewrite ?IHg, ?IHm;
    split; split; intuition (subst; congruence || auto).
Qed.

(** [gene_cols] is the sub-list of the score columns, in column order. *)
Lemma gene_cols_filter {stats : Statistics} (df : DataFrame) :
  gene_cols df = filter (fun c => is_gene_col (col_data c)) (df_columns df).
Proof.
  unfold gene_cols. induction (df_columns df) as [|x cols IH]; simpl; [reflexivity|].
  destruct (classify_columns cols) as [g m]; simpl in *.
  destruct (is_gene_col (col_data x)); simpl; now rewrite IH.
Qed.

(** C3, as stated, fails: a numeric column with exactly ten values, whose
    mean and deviation would pass, is skipped before they are looked
    at. *)
Lemma skip_rule_as_specified_fails :
  is_numeric_dtype ten_scores = true /\
  List.length (sample_values ten_scores) = 10%nat /\
  stat_test (sample_values ten_scores) = true /\
  reaches_stat_test ten_scores = false /\
  is_gene_col ten_scores = false /\
  ~ skip_rule_as_specified.
Proof.
  assert (Hskip : reaches_stat_test ten_scores = false) by (vm_compute; reflexivity).
  do 5 (split; [vm_compute; reflexivity|]).
  intros Hrule.
  destruct (proj1 (Hrule ten_scores) Hskip) as [H | H].
  - discriminate H.
  - vm_compute in H. lia.
Qed.

(** C3, amended: the classifier skips a column, treating it as metadata
    without the test on mean and deviation, if and only if its dtype is
    not numeric or it has at most 10 non-missing values; a numeric
    column with exactly 10 values is skipped, one with 11 is not. *)
Theorem skip_rule {stats : Statistics} :
  (forall s, reaches_stat_test s = false <->
             (is_numeric_dtype s = false \/
              (List.length (sample_values s) <= 10)%nat)) /\
  (forall df c, In c (df_columns df) ->
                reaches_stat_test (col_data c) = false ->
                In c (meta_cols df) /\ ~ In c (gene_cols df)) /\
  (forall s, is_numeric_dtype s = true ->
             List.length (sample_values s) = 10%nat ->
             reaches_stat_test s = false) /\
  (forall s, is_numeric_dtype s = true ->
             List.length (sample_values s) = 11%nat ->
             reaches_stat_test s = true).
Proof.
  assert (Hiff : forall s, reaches_stat_test s = false <->
             (is_numeric_dtype s = false \/
              (List.length (sample_values s) <= 10)%nat)).
  { intros s. unfold reaches_stat_test.
    rewrite andb_false_iff, Nat.ltb_ge. reflexivity. }
  split; [exact Hiff|]. split; [|split].
  - intros df c Hin Hskip.
    assert (Hg : is_gene_col (col_data c) = false)
      by (rewrite is_gene_col_split, Hskip; reflexivity).
    unfold meta_cols, gene_cols.
    destruct (classify_columns_spec (df_columns df) c) as [Hgene Hmeta].
    split; [apply Hmeta; auto|].
    intros H. apply Hgene in H as [_ H]. congruence.
  - intros s Hnum Hlen. apply Hiff. right. lia.
  - intros s Hnum Hlen. apply reaches_stat_test_iff. split; [assumption | lia].
Qed.

Lemma skip_rule_witness :
  reaches_stat_test ten_scores = false /\
  reaches_stat_test (nums myc_scores) = true /\
  In (mkColumn "Lineage" (labels tissue)) (meta_cols depmap_table).
Proof.
  assert (Hnum10 : is_numeric_dtype ten_scores = true) by reflexivity.
  assert (Hlen10 : List.length (sample_values ten_scores) = 10%nat) by reflexivity.
  assert (Hnum11 : is_numeric_dtype (nums myc_scores) = true) by reflexivity.
  assert (Hlen11 : List.length (sample_values (nums myc_scores)) = 11%nat) by reflexivity.
  assert (Hin : In (mkColumn "Lineage" (labels tissue)) (df_columns depmap_table))
    by (left; reflexivity).
  assert (Hskip : reaches_stat_test (col_data (mkColumn "Lineage" (labels tissue))) = false)
    by reflexivity.
  split; [exact (proj1 (proj2 (proj2 skip_rule)) _ Hnum10 Hlen10)|].
  split; [exact (proj2 (proj2 (proj2 skip_rule)) _ Hnum11 Hlen11)|].
  exact (proj1 (proj1 (proj2 skip_rule) _ _ Hin Hskip)).
Defined.



(** ** Sorting *)

Section InsertionSort.

Variable before : Q -> Q -> bool.
Hypothesis before_le : forall x y, before x y = true -> x <= y.
Hypothesis not_before_ge : forall x y, before x y = false -> y <= x.

Lemma insert_by_perm (x : string * Q) (s : ScoreSeries) :
  Permutation (insert_by before x s) (x :: s).
Proof.
  induction s as [|y s IH]; simpl; [reflexivity|].
  destruct (before (snd x) (snd y)); [reflexivity|].
  rewrite IH. apply perm_swap.
Qed.

Lemma insert_by_sorted (x : string * Q) (s : ScoreSeries) :
  StronglySorted le_score s -> StronglySorted le_score (insert_by before x s).
Proof.
  induction 1 as [|y s Hs IH Hy]; simpl.
  - repeat constructor.
  - destruct (before (snd x) (snd y)) eqn:Hb.
    + constructor; [now constructor|].
      apply before_le in Hb. constructor; [exact Hb|].
      eapply Forall_impl; [|exact Hy].
      intros z Hz. unfold le_score in *. now apply Qle_trans with (snd y).
    + constructor; [exact IH|].
      apply (Permutation_Forall (Permutation_sym (insert_by_perm x s))).
      constructor; [|exact Hy]. now apply not_before_ge.
Qed.

Lemma sort_by_contract : sort_values_contract (sort_by before).
Proof.
  intros s. induction s as [|x s [IHp IHs]]; simpl.
  - split; constructor.
  - split.
    + rewrite insert_by_perm. now constructor.
    + now apply insert_by_sorted.
Qed.

(** An insertion leaves the entries already there in their order. *)
Lemma insert_by_keeps_one (x b : string * Q) (k2 k3 : ScoreSeries) :
  exists k2' k3', insert_by before x (k2 ++ b :: k3) = k2' ++ b :: k3'.
Proof.
  induction k2 as [|y k2 (k2' & k3' & IH)]; simpl.
  - destruct (before (snd x) (snd b)).
    + now exists [x], k3.
    + now exists [], (insert_by before x k3).
  - destruct (before (snd x) (snd y)).
    + now exists (x :: y :: k2), k3.
    + rewrite IH. now exists (y :: k2'), k3'.
Qed.

Lemma insert_by_keeps_order (x a b : string * Q) (k1 k2 k3 : ScoreSeries) :
  exists k1' k2' k3',
    insert_by before x (k1 ++ a :: k2 ++ b :: k3) = k1' ++ a :: k2' ++ b :: k3'.
Proof.
  induction k1 as [|y k1 (k1' & k2' & k3' & IH)]; simpl.
  - destruct (before (snd x) (snd a)).
    + now exists [x], k2, k3.
    + destruct (insert_by_keeps_one x b k2 k3) as (k2' & k3' & ->).
      now exists [], k2', k3'.
  - destruct (before (snd x) (snd y)).
    + now exists (x :: y :: k1), k2, k3.
    + rewrite IH. now exists (y :: k1'), k2', k3'.
Qed.

(** An entry goes in front of every entry it may stand before. *)
Lemma insert_by_in_front (a b : string * Q) (s : ScoreSeries) :
  In b s -> before (snd a) (snd b) = true ->
  exists k1 k2 k3, insert_by before a s = k1 ++ a :: k2 ++ b :: k3.
Proof.
  intros Hin Hab. induction s as [|y s IH]; [destruct Hin|]. simpl.
  destruct (before (snd a) (snd y)) eqn:Hay.
  - apply in_split in Hin as (l1 & l2 & ->). now exists [], l1, l2.
  - destruct Hin as [-> | Hin]; [congruence|].
    destruct (IH Hin) as (k1 & k2 & k3 & ->). now exists (y :: k1), k2, k3.
Qed.

Lemma sort_by_keeps_order (a b : string * Q) (s1 s2 s3 : ScoreSeries) :
  before (snd a) (snd b) = true ->
  exists k1 k2 k3,
    sort_by before (s1 ++ a :: s2 ++ b :: s3) = k1 ++ a :: k2 ++ b :: k3.
Proof.
  intros Hab. induction s1 as [|x s1 (k1 & k2 & k3 & IH)]; simpl.
  - apply insert_by_in_front; [|exact Hab].
    apply (Permutation_in b (Permutation_sym (proj1 (sort_by_contract _)))).
    apply in_or_app. right. now left.
  - rewrite IH. apply insert_by_keeps_order.
Qed.

End InsertionSort.

Lemma sort_keeping_ties_contract : sort_values_contract sort_keeping_ties.
Proof.
  apply sort_by_contract.
  - intros x y. apply Qle_bool_iff.
  - intros x y H. apply Qlt_le_weak, Qnot_le_lt.
    intros Hle. apply Qle_bool_iff in Hle. congruence.
Qed.

Lemma StronglySorted_weaken {A : Type} (R R' : A -> A -> Prop) (l : list A) :
  (forall x y, R x y -> R' x y) -> StronglySorted R l -> StronglySorted R' l.
Proof.
  intros HR. induction 1 as [|a l Hl IH Ha]; constructor; [exact IH|].
  eapply Forall_impl; [|exact Ha]. intros y. apply HR.
Qed.

(** In a strongly sorted list any two members are equal or related. *)
Lemma StronglySorted_In {A : Type} (R : A -> A -> Prop) (l : list A) :
  StronglySorted R l ->
  forall x y, In x l -> In y l -> x = y \/ R x y \/ R y x.
Proof.
  induction 1 as [|a l Hl IH Ha]; intros x y Hx Hy; [destruct Hx|].
  rewrite Forall_forall in Ha.
  destruct Hx as [<- | Hx], Hy as [<- | Hy]; auto.
Qed.

(** ** The ranking table *)

Lemma rows_from_combine (n i : nat) (s : ScoreSeries) :
  map (fun '(i, (col, m)) => ranking_row n i col m)
      (combine (seq i (List.length s)) s) = rows_from n i s.
Proof.
  revert i. induction s as [|[col m] s IH]; intros i; simpl; [reflexivity|].
  now rewrite IH.
Qed.

Lemma build_rankings_rows (s : ScoreSeries) :
  build_rankings s = rows_from (List.length s) 1 s.
Proof. apply rows_from_combine. Qed.

Lemma rows_from_length n i s : List.length (rows_from n i s) = List.length s.
Proof.
  revert i. induction s as [|[col m] s IH]; intros i; simpl; auto.
Qed.

Lemma rows_from_rank n i s : map rank (rows_from n i s) = seq i (List.length s).
Proof.
  revert i. induction s as [|[col m] s IH]; intros i; simpl; [reflexivity|].
  now rewrite IH.
Qed.

Lemma rows_from_scores n i s :
  map (fun r => (gene_raw r, mean_score r)) (rows_from n i s) = s.
Proof.
  revert i. induction s as [|[col m] s IH]; intros i; simpl; [reflexivity|].
  now rewrite IH.
Qed.

Lemma rows_from_raw n i s : map gene_raw (rows_from n i s) = map fst s.
Proof.
  revert i. induction s as [|[col m] s IH]; intros i; simpl; [reflexivity|].
  now rewrite IH.
Qed.

Lemma rows_from_In n i s r :
  In r (rows_from n i s) ->
  (i <= rank r)%nat /\ In (gene_raw r, mean_score r) s /\
  gene r = extract_gene_name (gene_raw r) /\
  gene_upper r = upper (gene r) /\
  percentile r = fmul (fdiv (Qnat (rank r)) (Qnat n)) 100.
Proof.
  revert i. induction s as [|[col m] s IH]; intros i; simpl; [intros []|].
  intros [<- | Hr].
  - simpl. repeat split; auto.
  - destruct (IH _ Hr) as (Hi & Hin & Hrest). repeat split; auto; try lia; apply Hrest.
Qed.

Lemma rows_from_sorted n i s :
  StronglySorted le_score s -> StronglySorted row_before (rows_from n i s).
Proof.
  intros Hs. revert i. induction Hs as [|[col m] s Hs IH Hx]; intros i; simpl.
  - constructor.
  - constructor; [apply IH|].
    apply Forall_forall. intros r Hr.
    destruct (rows_from_In _ _ _ _ Hr) as (Hi & Hin & _).
    rewrite Forall_forall in Hx. split; simpl; [lia|].
    exact (Hx _ Hin).
Qed.

Lemma compute_gene_rankings_some {stats : Statistics} sort_values df :
  gene_cols df <> [] ->
  compute_gene_rankings sort_values df
  = (Some (build_rankings (sort_values (column_means (gene_cols df)))),
     df_len df, None).
Proof.
  unfold compute_gene_rankings. destruct (gene_cols df); [congruence | reflexivity].
Qed.

Lemma compute_gene_rankings_inv {stats : Statistics} sort_values df rk n msg :
  compute_gene_rankings sort_values df = (Some rk, n, msg) ->
  rk = build_rankings (sort_values (column_means (gene_cols df))).
Proof.
  unfold compute_gene_rankings. destruct (gene_cols df); [discriminate|].
  now intros [= <- _ _].
Qed.

Lemma column_means_names {stats : Statistics} cols : map fst (column_means cols) = map col_name cols.
Proof. unfold column_means. rewrite map_map. reflexivity. Qed.

Lemma Qnat_pos (n : nat) : (0 < n)%nat -> 0 < Qnat n.
Proof. intros H. unfold Qnat, Qlt. simpl. lia. Qed.

(** ** Floating point *)

Lemma round_half_even_near (num den : Z) :
  (0 < den)%Z ->
  (2 * Z.abs (round_half_even num den * den - num) <= den)%Z.
Proof.
  intros Hden. unfold round_half_even.
  pose proof (Z.div_mod num den ltac:(lia)) as Hdm.
  pose proof (Z.mod_pos_bound num den Hden) as Hr.
  set (q := (num / den)%Z) in *. set (r := (num mod den)%Z) in *.
  destruct (Z.compare_spec (2 * r) den) as [He | Hl | Hg];
    [destruct (Z.even q)| |]; nia.
Qed.

Lemma pow2_pos (k : Z) : 0 < 2 ^ k.
Proof. now apply Qpower_0_lt. Qed.

Lemma pow2_plus (j k : Z) : 2 ^ (j + k) == 2 ^ j * 2 ^ k.
Proof. now apply Qpower_plus. Qed.

Lemma pow2_succ (k : Z) : 2 ^ (k + 1) == 2 * 2 ^ k.
Proof. rewrite pow2_plus. change (2 ^ 1) with 2. ring. Qed.

Lemma pow2_inject (k : Z) : (0 <= k)%Z -> inject_Z (2 ^ k) == 2 ^ k.
Proof. intros Hk. now rewrite Zpower_Qpower. Qed.

Lemma pow2_opp (k : Z) : 2 ^ (- k) * 2 ^ k == 1.
Proof.
  rewrite <- pow2_plus. now replace (- k + k)%Z with 0%Z by lia.
Qed.

Lemma scale2_value (n e : Z) : scale2 n e == inject_Z n * 2 ^ e.
Proof.
  unfold scale2. rewrite Qred_correct.
  destruct (0 <=? e)%Z eqn:He.
  - apply Z.leb_le in He. now rewrite inject_Z_mult, pow2_inject.
  - apply Z.leb_gt in He.
    rewrite Qmake_Qdiv, Z2Pos.id by (apply Z.pow_pos_nonneg; lia).
    rewrite pow2_inject by lia.
    rewrite Qpower_opp. pose proof (pow2_pos e) as Hp.
    field. intros H0. rewrite H0 in Hp. lra.
Qed.

Lemma binade_spec (a b : Z) :
  (0 < a)%Z -> (0 < b)%Z ->
  2 ^ binade a b * inject_Z b <= inject_Z a /\
  inject_Z a < 2 ^ (binade a b + 1) * inject_Z b.
Proof.
  intros Ha Hb. unfold binade.
  destruct (Z.log2_spec a Ha) as [Ha1 Ha2].
  destruct (Z.log2_spec b Hb) as [Hb1 Hb2].
  pose proof (Z.log2_nonneg a) as Hla. pose proof (Z.log2_nonneg b) as Hlb.
  rewrite Zle_Qle in Ha1, Hb1. rewrite Zlt_Qlt in Ha2, Hb2.
  rewrite <- Z.add_1_r in Ha2, Hb2.
  rewrite pow2_inject in Ha1, Ha2, Hb1, Hb2 by lia.
  rewrite pow2_succ in Ha2, Hb2.
  set (la := Z.log2 a) in *. set (lb := Z.log2 b) in *.
  set (k := (la - lb)%Z).
  assert (Hk : 2 ^ la == 2 ^ k * 2 ^ lb).
  { rewrite <- pow2_plus. now replace (k + lb)%Z with la by (unfold k; lia). }
  assert (Hk1 : 2 ^ k == 2 * 2 ^ (k - 1)).
  { rewrite <- pow2_succ. now replace (k - 1 + 1)%Z with k by lia. }
  pose proof (pow2_pos k) as Pk. pose proof (pow2_pos (k - 1)) as Pk1.
  pose proof (pow2_pos la) as Pla. pose proof (pow2_pos lb) as Plb.
  assert (HA : 0 < inject_Z a) by (change 0 with (inject_Z 0); now rewrite <- Zlt_Qlt).
  assert (HB : 0 < inject_Z b) by (change 0 with (inject_Z 0); now rewrite <- Zlt_Qlt).
  set (below := if (0 <=? k)%Z then (a <? b * 2 ^ k)%Z else (a * 2 ^ (- k) <? b)%Z).
  assert (Hbelow : below = true <-> inject_Z a < 2 ^ k * inject_Z b).
  { unfold below. destruct (0 <=? k)%Z eqn:Hk0.
    - apply Z.leb_le in Hk0.
      rewrite Z.ltb_lt, Zlt_Qlt, inject_Z_mult, pow2_inject by lia.
      split; intros H; lra.
    - apply Z.leb_gt in Hk0.
      rewrite Z.ltb_lt, Zlt_Qlt, inject_Z_mult, pow2_inject by lia.
      pose proof (pow2_opp k) as Ho. pose proof (pow2_pos (- k)) as Po.
      split; intros H; nra. }
  destruct below.
  - assert (H : inject_Z a < 2 ^ k * inject_Z b) by now apply Hbelow.
    replace (k - 1 + 1)%Z with k by lia. split; [|exact H]. nra.
  - assert (H : ~ inject_Z a < 2 ^ k * inject_Z b).
    { intros H. apply Hbelow in H. discriminate. }
    rewrite pow2_succ. split; nra.
Qed.

Lemma unit_roundoff_pow2 : unit_roundoff == 2 ^ (-53).
Proof. reflexivity. Qed.

(** A rational from 2^-1022 on is rounded with a relative error of at
    most 2^-53. *)
Lemma round64_error (q : Q) :
  2 ^ (-1022) <= q -> Qabs (round64 q - q) <= q * unit_roundoff.
Proof.
  intros Hq. pose proof (pow2_pos (-1022)) as Hmin.
  destruct q as [a b]. unfold round64. cbn [Qnum Qden].
  assert (Ha : (0 < a)%Z).
  { assert (H : 0 < a # b) by (eapply Qlt_le_trans; [exact Hmin | exact Hq]).
    unfold Qlt in H. simpl in H. lia. }
  destruct (a =? 0)%Z eqn:Ha0; [apply Z.eqb_eq in Ha0; lia|]. clear Ha0.
  rewrite (Z.abs_eq a), (Z.sgn_pos a), Z.mul_1_l by lia.
  destruct (binade_spec a (Z.pos b) Ha eq_refl) as [Hlo Hhi].
  set (k := binade a (Z.pos b)) in *.
  assert (HA : 0 < inject_Z a) by (change 0 with (inject_Z 0); now rewrite <- Zlt_Qlt).
  assert (HB : 0 < inject_Z (Z.pos b)) by reflexivity.
  assert (Hq' : a # b == inject_Z a / inject_Z (Z.pos b)) by apply Qmake_Qdiv.
  set (A := inject_Z a) in *. set (B := inject_Z (Z.pos b)) in *.
  assert (HqB : (a # b) * B == A).
  { rewrite Hq'. field. lra. }
  assert (Hk : (-1022 <= k)%Z).
  { assert (H : 2 ^ (-1022) < 2 ^ (k + 1)).
    { destruct (Qlt_le_dec (2 ^ (-1022)) (2 ^ (k + 1))) as [H | H]; [exact H|].
      exfalso. set (lo := 2 ^ (-1022)) in *. set (hi := 2 ^ (k + 1)) in *.
      set (x := a # b) in *. nra. }
    apply Qpower_lt_compat_l_inv in H; [lia | reflexivity]. }
  rewrite (Z.max_l (k - 52) (-1074)) by lia.
  set (e := (k - 52)%Z).
  assert (He : 2 ^ e == 2 * (2 ^ k * unit_roundoff)).
  { rewrite unit_roundoff_pow2, <- pow2_plus, <- pow2_succ.
    now replace (k + -53 + 1)%Z with e by (unfold e; lia). }
  pose proof (pow2_pos e) as Pe. pose proof (pow2_pos k) as Pk.
  set (n := if (0 <=? e)%Z then round_half_even a (Z.pos b * 2 ^ e)
            else round_half_even (a * 2 ^ (- e)) (Z.pos b)).
  assert (Hn : - (B * 2 ^ e) <= 2 * (inject_Z n * B * 2 ^ e - A) <= B * 2 ^ e).
  { unfold n. destruct (0 <=? e)%Z eqn:He0.
    - apply Z.leb_le in He0.
      pose proof (round_half_even_near a (Z.pos b * 2 ^ e)
                    ltac:(apply Z.mul_pos_pos; [reflexivity | apply Z.pow_pos_nonneg; lia]))
        as Hr.
      set (r := round_half_even a (Z.pos b * 2 ^ e)) in *.
      assert (H1 : (- (Z.pos b * 2 ^ e) <= 2 * (r * (Z.pos b * 2 ^ e) - a))%Z) by lia.
      assert (H2 : (2 * (r * (Z.pos b * 2 ^ e) - a) <= Z.pos b * 2 ^ e)%Z) by lia.
      rewrite Zle_Qle in H1, H2. unfold Z.sub in H1, H2.
      repeat (rewrite inject_Z_mult in H1 || rewrite inject_Z_plus in H1
              || rewrite inject_Z_opp in H1).
      repeat (rewrite inject_Z_mult in H2 || rewrite inject_Z_plus in H2
              || rewrite inject_Z_opp in H2).
      rewrite !pow2_inject in H1, H2 by lia.
      fold A B in H1, H2. change (inject_Z 2) with 2 in H1, H2.
      split; lra.
    - apply Z.leb_gt in He0.
      pose proof (round_half_even_near (a * 2 ^ (- e)) (Z.pos b) eq_refl) as Hr.
      set (r := round_half_even (a * 2 ^ (- e)) (Z.pos b)) in *.
      assert (H1 : (- Z.pos b <= 2 * (r * Z.pos b - a * 2 ^ (- e)))%Z) by lia.
      assert (H2 : (2 * (r * Z.pos b - a * 2 ^ (- e)) <= Z.pos b)%Z) by lia.
      rewrite Zle_Qle in H1, H2. unfold Z.sub in H1, H2.
      repeat (rewrite inject_Z_mult in H1 || rewrite inject_Z_plus in H1
              || rewrite inject_Z_opp in H1).
      repeat (rewrite inject_Z_mult in H2 || rewrite inject_Z_plus in H2
              || rewrite inject_Z_opp in H2).
      rewrite !pow2_inject in H1, H2 by lia.
      fold A B in H1, H2. change (inject_Z 2) with 2 in H1, H2.
      pose proof (pow2_opp e) as Ho.
      assert (HAe : A * 2 ^ (- e) * 2 ^ e == A).
      { rewrite <- Qmult_assoc, Ho. ring. }
      apply (fun H => Qmult_le_compat_r _ _ (2 ^ e) H (Qlt_le_weak _ _ Pe)) in H1, H2.
      set (o := 2 ^ (- e)) in *. set (p := 2 ^ e) in *.
      set (R := inject_Z r) in *.
      clearbody o p R. clear - H1 H2 HAe. split; lra. }
  rewrite scale2_value. apply Qabs_Qle_condition.
  assert (Hu : 0 < unit_roundoff) by reflexivity.
  set (N := inject_Z n) in *. set (x := a # b) in *.
  set (pe := 2 ^ e) in *. set (pk := 2 ^ k) in *. set (u := unit_roundoff) in *.
  clearbody N x pe pk u A B. clear - Hlo HB HqB He Pk Hn Hu.
  assert (Hx : pk <= x).
  { destruct (Qlt_le_dec x pk) as [H | H]; [exfalso; nra | exact H]. }
  destruct Hn as [Hn1 Hn2]. split.
  - destruct (Qlt_le_dec (N * pe - x) (- (x * u))) as [H | H]; [exfalso | exact H].
    assert (H' : B * (N * pe - x) < B * - (x * u)) by nra.
    assert (H'' : B * pk * u <= B * x * u) by nra.
    nra.
  - destruct (Qlt_le_dec (x * u) (N * pe - x)) as [H | H]; [exfalso | exact H].
    assert (H' : B * (x * u) < B * (N * pe - x)) by nra.
    assert (H'' : B * pk * u <= B * x * u) by nra.
    nra.
Qed.

(** The percentile of row [i] of [n] is [i / n * 100] with a relative
    error of at most two roundings. *)
Lemma percentile_error (i n : nat) :
  (1 <= i)%nat -> (1 <= n)%nat -> (Z.of_nat n < 2 ^ 1000)%Z ->
  Qabs (fmul (fdiv (Qnat i) (Qnat n)) 100 - Qnat i / Qnat n * 100)
  <= Qnat i / Qnat n * 100 * (4 * unit_roundoff).
Proof.
  intros Hi Hn Hbig.
  assert (HI : 1 <= Qnat i).
  { unfold Qnat. change 1 with (inject_Z 1). rewrite <- Zle_Qle. lia. }
  assert (HN : 1 <= Qnat n).
  { unfold Qnat. change 1 with (inject_Z 1). rewrite <- Zle_Qle. lia. }
  assert (HN' : Qnat n < 2 ^ 1000).
  { unfold Qnat. rewrite <- (pow2_inject 1000) by lia. now rewrite <- Zlt_Qlt. }
  assert (Hlow : 2 ^ (-1022) <= 2 ^ (-1000)).
  { apply Qpower_le_compat_l; [lia | discriminate]. }
  pose proof (pow2_opp 1000) as Ho. pose proof (pow2_pos (-1000)) as Po.
  pose proof (pow2_pos (-1022)) as Pm.
  set (x0 := Qnat i / Qnat n).
  assert (Hx0 : x0 * Qnat n == Qnat i).
  { unfold x0. field. intros H0. rewrite H0 in HN. lra. }
  set (lo := 2 ^ (-1000)) in *. set (m := 2 ^ (-1022)) in *.
  set (hi := 2 ^ 1000) in *.
  assert (Hx0lo : lo <= x0).
  { destruct (Qlt_le_dec x0 lo) as [H | H]; [exfalso | exact H].
    assert (H1 : x0 * Qnat n < lo * Qnat n) by (apply Qmult_lt_compat_r; lra).
    assert (H2 : lo * Qnat n < lo * hi) by (apply Qmult_lt_l; lra).
    change (2 ^ (- (1000))) with lo in Ho. lra. }
  unfold fmul, fdiv. fold x0.
  pose proof (round64_error (Qred x0)) as Hx.
  set (x := round64 (Qred x0)) in *. clearbody x.
  rewrite Qred_correct in Hx. change (2 ^ (-1022)) with m in Hx.
  specialize (Hx ltac:(lra)).
  apply Qabs_Qle_condition in Hx.
  pose proof (round64_error (Qred (x * 100))) as Hp.
  set (p := round64 (Qred (x * 100))) in *. clearbody p.
  rewrite Qred_correct in Hp. change (2 ^ (-1022)) with m in Hp.
  unfold unit_roundoff in *.
  specialize (Hp ltac:(lra)).
  apply Qabs_Qle_condition in Hp.
  apply Qabs_Qle_condition.
  clearbody x0 lo m hi. clear - Hx Hp Hx0lo Po.
  split; lra.
Qed.

(** For the last of [n] rows the quotient is 1 and the percentile is
    100, without rounding. *)
Lemma percentile_last (n : nat) :
  (0 < n)%nat -> fmul (fdiv (Qnat n) (Qnat n)) 100 = 100.
Proof.
  intros Hn. unfold fdiv.
  assert (Hone : Qnat n / Qnat n == 1).
  { pose proof (Qnat_pos n Hn) as Hpos. field.
    intros H0. rewrite H0 in Hpos. now apply Qlt_irrefl in Hpos. }
  rewrite (Qred_complete _ _ Hone). vm_compute. reflexivity.
Qed.

(** ** The ranking (C1) *)

(** C1, as stated, fails: in the ranking of three score columns the
    percentile at rank 1 is the double (1 / 3) * 100, which is
    33.33333333333333 and neither the quotient 100/3 nor the double
    100 / 3, which is 33.333333333333336. *)
Lemma percentile_at_rank_1_as_specified_fails :
  sort_values_contract sort_keeping_ties /\
  compute_gene_rankings sort_keeping_ties three_gene_table
  = (Some sample_ranking, 11%nat, None) /\
  map rank sample_ranking = [1%nat; 2%nat; 3%nat] /\
  map percentile sample_ranking
  = [2345624805922133 # 70368744177664;
     2345624805922133 # 35184372088832;
     100] /\
  fdiv 100 3 = 4691249611844267 # 140737488355328 /\
  ~ percentile_at_rank_1_as_specified.
Proof.
  assert (Hrun : compute_gene_rankings sort_keeping_ties three_gene_table
                 = (Some sample_ranking, 11%nat, None)) by (vm_compute; reflexivity).
  split; [exact sort_keeping_ties_contract|]. split; [exact Hrun|].
  do 3 (split; [vm_compute; reflexivity|]).
  intros Hspec.
  assert (Hin : In (ranking_row 3 1 "MYC (4609)" (-2)) sample_ranking)
    by (left; reflexivity).
  destruct (Hspec _ sort_keeping_ties_contract _ _ _ _ Hrun _ Hin eq_refl) as [H | H];
    vm_compute in H; discriminate H.
Qed.

(** C1, amended: for a table with at least one score column, the
    ranking has one row per score column, the ranks are 1..N in row
    order, the mean does not decrease as the rank grows, and the
    percentile is the double (rank / N) * 100, a division and a
    multiplication, each rounded: it differs from rank / N * 100 by at
    most 2^-51 of it, it is exactly 100 at rank N, and at rank 1 it is
    the double (1 / N) * 100, which need not be the double 100 / N. *)
Theorem gene_rankings_shape {stats : Statistics} :
  forall sort_values, sort_values_contract sort_values ->
  forall df, gene_cols df <> [] ->
  exists rk,
    compute_gene_rankings sort_values df = (Some rk, df_len df, None) /\
    List.length rk = List.length (gene_cols df) /\
    Permutation (map gene_raw rk) (map col_name (gene_cols df)) /\
    map rank rk = seq 1 (List.length rk) /\
    (forall r1 r2, In r1 rk -> In r2 rk -> (rank r1 <= rank r2)%nat ->
                   mean_score r1 <= mean_score r2) /\
    (forall r, In r rk ->
               percentile r
               = fmul (fdiv (Qnat (rank r)) (Qnat (List.length rk))) 100) /\
    ((Z.of_nat (List.length rk) < 2 ^ 1000)%Z ->
     forall r, In r rk ->
       Qabs (percentile r - Qnat (rank r) / Qnat (List.length rk) * 100)
       <= Qnat (rank r) / Qnat (List.length rk) * 100 * (4 * unit_roundoff)) /\
    (forall r, In r rk -> rank r = 1%nat ->
               percentile r = fmul (fdiv 1 (Qnat (List.length rk))) 100) /\
    (forall r, In r rk -> rank r = List.length rk -> percentile r = 100).
Proof.
  intros sort_values Hsort df Hne.
  destruct (Hsort (column_means (gene_cols df))) as [Hperm Hsorted].
  set (s := sort_values (column_means (gene_cols df))) in *.
  exists (build_rankings s).
  split; [now apply compute_gene_rankings_some|].
  rewrite build_rankings_rows.
  assert (Hlen : List.length (rows_from (List.length s) 1 s) = List.length s)
    by apply rows_from_length.
  assert (Hlen' : List.length s = List.length (gene_cols df)).
  { rewrite (Permutation_length Hperm). unfold column_means. apply length_map. }
  assert (Hpos : (0 < List.length s)%nat).
  { rewrite Hlen'. destruct (gene_cols df); [congruence | simpl; lia]. }
  assert (Hpct : forall r, In r (rows_from (List.length s) 1 s) ->
            percentile r
            = fmul (fdiv (Qnat (rank r)) (Qnat (List.length s))) 100).
  { intros r Hr. now destruct (rows_from_In _ _ _ _ Hr) as (_ & _ & _ & _ & ->). }
  rewrite Hlen.
  split; [exact Hlen'|]. split; [|split; [|split; [|split; [|split; [|split]]]]].
  - rewrite rows_from_raw, <- column_means_names.
    apply Permutation_map. exact Hperm.
  - apply rows_from_rank.
  - intros r1 r2 H1 H2 Hle.
    pose proof (rows_from_sorted (List.length s) 1 s Hsorted) as Hrows.
    destruct (StronglySorted_In _ _ Hrows r1 r2 H1 H2) as [<- | [[_ H] | [H _]]].
    + apply Qle_refl.
    + exact H.
    + lia.
  - exact Hpct.
  - intros Hbig r Hr. rewrite (Hpct r Hr).
    destruct (rows_from_In _ _ _ _ Hr) as (Hrank & _).
    now apply percentile_error.
  - intros r Hr H1. rewrite (Hpct r Hr), H1. reflexivity.
  - intros r Hr HN. rewrite (Hpct r Hr), HN. now apply percentile_last.
Qed.

Lemma gene_rankings_shape_witness :
  sort_values_contract sort_keeping_ties /\
  gene_cols three_gene_table <> [] /\
  exists rk,
    compute_gene_rankings sort_keeping_ties three_gene_table
    = (Some rk, 11%nat, None) /\
    List.length rk = 3%nat /\
    map rank rk = [1%nat; 2%nat; 3%nat] /\
    forall r, In r rk ->
      Qabs (percentile r - Qnat (rank r) / 3 * 100)
      <= Qnat (rank r) / 3 * 100 * (4 * unit_roundoff).
Proof.
  assert (Hne : gene_cols three_gene_table <> []) by (vm_compute; discriminate).
  assert (Hn : List.length (gene_cols three_gene_table) = 3%nat)
    by (vm_compute; reflexivity).
  split; [exact sort_keeping_ties_contract|]. split; [exact Hne|].
  destruct (gene_rankings_shape _ sort_keeping_ties_contract three_gene_table Hne)
    as (rk & Hrk & Hlen & _ & Hrank & _ & _ & Hnear & _).
  exists rk. rewrite Hn in Hlen. rewrite Hlen in Hrank, Hnear.
  split; [exact Hrk|]. split; [exact Hlen|]. split; [exact Hrank|].
  exact (Hnear eq_refl).
Defined.

(** ** The order of the ranking *)

(** With a sort that keeps ties, such as [sort_values(kind='stable')],
    columns of equal mean do stay in column order. *)
Lemma stable_sort_keeps_column_order {stats : Statistics} :
  ties_keep_column_order sort_keeping_ties.
Proof.
  intros df rk n msg Hrun c1 ca c2 cb c3 Hcols Hmean.
  apply compute_gene_rankings_inv in Hrun. subst rk.
  rewrite build_rankings_rows, rows_from_raw, Hcols.
  unfold column_means. rewrite map_app. simpl. rewrite map_app. simpl.
  set (f := fun c => (col_name c, mean (sample_values (col_data c)))).
  destruct (sort_by_keeps_order Qle_bool
              (fun x y => proj1 (Qle_bool_iff x y))
              (fun x y H => Qlt_le_weak _ _ (Qnot_le_lt _ _
                 (fun Hle => eq_true_false_abs _ (proj2 (Qle_bool_iff x y) Hle) H)))
              (f ca) (f cb) (map f c1) (map f c2) (map f c3))
    as (k1 & k2 & k3 & Hk).
  - apply Qle_bool_iff. simpl. rewrite Hmean. apply Qle_refl.
  - unfold sort_keeping_ties.
    change (col_name ca, mean (sample_values (col_data ca))) with (f ca).
    change (col_name cb, mean (sample_values (col_data cb))) with (f cb).
    rewrite Hk.
    exists (map fst k1), (map fst k2), (map fst k3).
    rewrite map_app. simpl. rewrite map_app. reflexivity.
Qed.

(** X20: the ranking holds the score columns with their means in
    ascending order of mean score, so that a column of strictly smaller
    mean always ranks before one of larger mean, whatever the sort does
    with equal means. *)
Theorem ranking_orders_by_mean {stats : Statistics} :
  forall sort_values, sort_values_contract sort_values ->
  forall df rk n msg,
    compute_gene_rankings sort_values df = (Some rk, n, msg) ->
    Permutation (map (fun r => (gene_raw r, mean_score r)) rk)
                (column_means (gene_cols df)) /\
    StronglySorted (fun r1 r2 => mean_score r1 <= mean_score r2) rk /\
    (forall r1 r2, In r1 rk -> In r2 rk -> mean_score r1 < mean_score r2 ->
                   (rank r1 < rank r2)%nat).
Proof.
  intros sort_values Hsort df rk n msg Hrun.
  apply compute_gene_rankings_inv in Hrun. subst rk.
  destruct (Hsort (column_means (gene_cols df))) as [Hperm Hsorted].
  set (s := sort_values (column_means (gene_cols df))) in *.
  rewrite build_rankings_rows.
  pose proof (rows_from_sorted (List.length s) 1 s Hsorted) as Hrows.
  split; [now rewrite rows_from_scores|]. split.
  - eapply StronglySorted_weaken; [|exact Hrows].
    intros r1 r2 [_ H]. exact H.
  - intros r1 r2 H1 H2 Hlt.
    destruct (StronglySorted_In _ _ Hrows r1 r2 H1 H2) as [<- | [[H _] | [_ H]]].
    + now apply Qlt_irrefl in Hlt.
    + exact H.
    + exfalso. apply (Qlt_not_le _ _ Hlt H).
Qed.

Lemma ranking_orders_by_mean_witness :
  sort_values_contract sort_keeping_ties /\
  compute_gene_rankings sort_keeping_ties depmap_table
  = (Some depmap_ranking, 11%nat, None) /\
  StronglySorted (fun r1 r2 => mean_score r1 <= mean_score r2) depmap_ranking.
Proof.
  assert (Hrun : compute_gene_rankings sort_keeping_ties depmap_table
                 = (Some depmap_ranking, 11%nat, None)) by (vm_compute; reflexivity).
  split; [exact sort_keeping_ties_contract|]. split; [exact Hrun|].
  exact (proj1 (proj2 (ranking_orders_by_mean _ sort_keeping_ties_contract
                         _ _ _ _ Hrun))).
Defined.

(** ** No score column (C9) *)

(** C9, as stated, fails: two tables without score columns, one of one
    column and one of two, get the very same failure value, so the
    column count cannot be read off it. *)
Lemma failure_carries_column_count_fails :
  gene_cols labels_table = [] /\ gene_cols labels_table2 = [] /\
  compute_gene_rankings sort_keeping_ties labels_table
  = compute_gene_rankings sort_keeping_ties labels_table2 /\
  List.length (df_columns labels_table) <> List.length (df_columns labels_table2) /\
  ~ failure_carries_column_count.
Proof.
  assert (H1 : gene_cols labels_table = []) by (vm_compute; reflexivity).
  assert (H2 : gene_cols labels_table2 = []) by (vm_compute; reflexivity).
  assert (Heq : compute_gene_rankings sort_keeping_ties labels_table
                = compute_gene_rankings sort_keeping_ties labels_table2)
    by (vm_compute; reflexivity).
  do 3 (split; [assumption|]). split; [simpl; lia|].
  intros Hcarry. destruct (Hcarry sort_keeping_ties) as [read_count Hread].
  pose proof (Hread _ H1) as Hc1. pose proof (Hread _ H2) as Hc2.
  rewrite Heq, Hc2 in Hc1. simpl in Hc1. lia.
Qed.

(** C9, amended: the ranking computation fails exactly when no column is
    classified as a score column; it then produces no ranking and
    returns the count 0 with one fixed human-readable message, the same
    for every table (the column count and the dtypes shown next to it
    are read from the table by the caller). *)
Theorem no_score_columns_failure {stats : Statistics} :
  forall sort_values df,
    (gene_cols df = [] ->
     compute_gene_rankings sort_values df = (None, 0%nat, Some no_gene_cols_msg)) /\
    (forall n msg, compute_gene_rankings sort_values df = (None, n, msg) ->
                   gene_cols df = []).
Proof.
  intros sort_values df. unfold compute_gene_rankings.
  destruct (gene_cols df); split; try reflexivity; try congruence; discriminate.
Qed.

Lemma no_score_columns_failure_witness :
  gene_cols labels_table = [] /\
  compute_gene_rankings sort_keeping_ties labels_table
  = (None, 0%nat, Some no_gene_cols_msg).
Proof.
  assert (H : gene_cols labels_table = []) by (vm_compute; reflexivity).
  split; [exact H|].
  exact (proj1 (no_score_columns_failure sort_keeping_ties labels_table) H).
Defined.

(** ** Matching (C7) *)

Lemma str_in_In (x : string) (l : list string) : str_in x l = true <-> In x l.
Proof.
  unfold str_in. rewrite existsb_exists. split.
  - intros (y & Hy & Heq). apply String.eqb_eq in Heq. now subst.
  - intros H. exists x. split; [exact H | apply String.eqb_refl].
Qed.

Lemma str_in_map_upper (u : string) (l : list string) :
  str_in u (map upper l) = existsb (fun g => String.eqb u (upper g)) l.
Proof.
  unfold str_in. induction l as [|g l IH]; simpl; [reflexivity | now rewrite IH].
Qed.

Lemma build_rankings_upper (s : ScoreSeries) :
  Forall (fun r => gene_upper r = upper (gene r)) (build_rankings s).
Proof.
  rewrite build_rankings_rows. apply Forall_forall. intros r Hr.
  now destruct (rows_from_In _ _ _ _ Hr) as (_ & _ & _ & H & _).
Qed.

(** C7: the matcher compares upper-cased symbols; the matched list is
    the ranking's own symbols of the rows that match some request, in
    the order of the ranking rows, and the not-found list is the
    requests that match no row, in the order they were given.
    Requesting "myc", "Foo", "PTEN" from a ranking that holds MYC and
    PTEN gives the matches MYC, PTEN and the miss Foo. *)
Theorem gene_matching :
  (forall rk gene_list,
      Forall (fun r => gene_upper r = upper (gene r)) rk ->
      filter_genes_by_list rk gene_list =
      (map gene (filter (fun r => existsb (ci_eqb (gene r)) gene_list) rk),
       filter (fun g => negb (existsb (fun r => ci_eqb g (gene r)) rk)) gene_list)) /\
  filter_genes_by_list sample_ranking ["myc"; "Foo"; "PTEN"]
  = (["MYC"; "PTEN"], ["Foo"]) /\
  filter_genes_by_list sample_ranking ["PTEN"; "Foo"; "myc"]
  = (["MYC"; "PTEN"], ["Foo"]).
Proof.
  split; [|split; vm_compute; reflexivity].
  intros rk gene_list Hwf. rewrite Forall_forall in Hwf.
  unfold filter_genes_by_list.
  assert (Hmask : filter (fun r => str_in (gene_upper r) (map upper gene_list)) rk
                  = filter (fun r => existsb (ci_eqb (gene r)) gene_list) rk).
  { apply filter_ext_in. intros r Hr.
    rewrite str_in_map_upper, (Hwf r Hr). reflexivity. }
  rewrite Hmask. f_equal.
  apply filter_ext_in. intros g Hg. f_equal.
  apply eq_true_iff_eq. rewrite str_in_In, in_map_iff, existsb_exists. split.
  - intros (r & Hup & Hr). apply filter_In in Hr as [Hr _].
    exists r. split; [exact Hr|]. unfold ci_eqb.
    rewrite <- (Hwf r Hr), Hup. apply String.eqb_refl.
  - intros (r & Hr & Heq). unfold ci_eqb in Heq. apply String.eqb_eq in Heq.
    exists r. split; [rewrite (Hwf r Hr); now symmetry|].
    apply filter_In. split; [exact Hr|].
    apply existsb_exists. exists g. split; [exact Hg|].
    unfold ci_eqb. rewrite Heq. apply String.eqb_refl.
Qed.

Lemma gene_matching_witness :
  Forall (fun r => gene_upper r = upper (gene r)) sample_ranking /\
  filter_genes_by_list sample_ranking ["tp53"; "myc"; "Kras"] =
  (map gene
       (filter (fun r => existsb (ci_eqb (gene r)) ["tp53"; "myc"; "Kras"])
               sample_ranking),
   filter (fun g => negb (existsb (fun r => ci_eqb g (gene r)) sample_ranking))
          ["tp53"; "myc"; "Kras"]).
Proof.
  assert (Hwf : Forall (fun r => gene_upper r = upper (gene r)) sample_ranking)
    by apply build_rankings_upper.
  split; [exact Hwf|].
  exact (proj1 gene_matching sample_ranking _ Hwf).
Defined.

(** ** Lineage reshaping (C4, C10) *)

Lemma dict_get_set (k k' v : string) (d : Dict) :
  dict_get k (dict_set k' v d)
  = if String.eqb k k' then Some v else dict_get k d.
Proof.
  induction d as [|[k0 v0] d IH]; simpl.
  - reflexivity.
  - destruct (String.eqb_spec k' k0) as [-> | Hne]; simpl.
    + now destruct (String.eqb k k0).
    + destruct (String.eqb_spec k k0) as [-> | Hne'].
      * destruct (String.eqb_spec k0 k'); [congruence | reflexivity].
      * exact IH.
Qed.

Lemma find_last {A : Type} (f : A -> bool) (l : list A) (x : A) :
  find f (l ++ [x])
  = match find f l with
    | Some y => Some y
    | None => if f x then Some x else None
    end.
Proof.
  induction l as [|a l IH]; simpl; [reflexivity|].
  now destruct (f a).
Qed.

Lemma fold_dict_get (k : string) (cols : list string) (d : Dict) :
  dict_get k (fold_left (fun d c => dict_set (upper c) c d) cols d)
  = match find (fun c => String.eqb k (upper c)) (rev cols) with
    | Some c => Some c
    | None => dict_get k d
    end.
Proof.
  revert d. induction cols as [|c cols IH]; intros d; simpl; [reflexivity|].
  rewrite IH, find_last, dict_get_set.
  destruct (find _ (rev cols)); [reflexivity|].
  now destruct (String.eqb k (upper c)).
Qed.

(** The dict of upper-cased names maps a key to the last column whose
    upper-cased name it is. *)
Lemma cols_upper_get (k : string) (cols : list string) :
  dict_get k (df_cols_upper cols)
  = find (fun c => String.eqb k (upper c)) (rev cols).
Proof.
  unfold df_cols_upper. rewrite fold_dict_get.
  now destruct (find _ (rev cols)).
Qed.

Lemma cols_upper_miss (k : string) (cols : list string) :
  (forall c, In c cols -> k <> upper c) -> dict_mem k (df_cols_upper cols) = false.
Proof.
  intros Hno. unfold dict_mem. rewrite cols_upper_get.
  destruct (find _ (rev cols)) as [c|] eqn:Hf; [|reflexivity].
  apply find_some in Hf as [Hin Heq]. apply String.eqb_eq in Heq.
  apply in_rev in Hin. now destruct (Hno c Hin).
Qed.

(** C10: when none of the requested symbols equals, case-insensitively,
    a full column name of the table, the aggregator returns no data,
    also when the table has a lineage column. *)
Theorem lineage_data_needs_full_column_name :
  forall df genes,
    (forall g c, In g genes -> In c (columns df) -> upper g <> upper c) ->
    get_lineage_data df genes = None.
Proof.
  intros df genes Hno. unfold get_lineage_data.
  destruct (find_lineage_col (columns df)); [|reflexivity].
  assert (Hnone : filter (fun g => dict_mem (upper g) (df_cols_upper (columns df))) genes = []).
  { induction genes as [|g genes IH]; simpl; [reflexivity|].
    rewrite cols_upper_miss by (intros c Hc; apply Hno; simpl; auto).
    apply IH. intros g' c Hg'. apply Hno. now right. }
  now rewrite Hnone.
Qed.

Lemma lineage_data_needs_full_column_name_witness :
  find_lineage_col (columns depmap_table) = Some "Lineage" /\
  (forall g c, In g ["MYC"; "TP53"] -> In c (columns depmap_table) ->
               upper g <> upper c) /\
  get_lineage_data depmap_table ["MYC"; "TP53"] = None.
Proof.
  assert (Hno : forall g c, In g ["MYC"; "TP53"] -> In c (columns depmap_table) ->
                            upper g <> upper c).
  { intros g c [<- | [<- | []]] [<- | [<- | [<- | [<- | []]]]];
      vm_compute; discriminate. }
  split; [reflexivity|]. split; [exact Hno|].
  exact (lineage_data_needs_full_column_name depmap_table _ Hno).
Defined.

Lemma cols_upper_hit (g : string) (cols : list string) :
  (exists c, In c cols /\ upper c = upper g) ->
  exists c, dict_get (upper g) (df_cols_upper cols) = Some c /\
            In c cols /\ upper c = upper g.
Proof.
  intros (c & Hc & Hup). rewrite cols_upper_get.
  destruct (find _ (rev cols)) as [c'|] eqn:Hf.
  - apply find_some in Hf as [Hin Heq]. apply String.eqb_eq in Heq.
    exists c'. split; [reflexivity|]. split; [now apply in_rev | now symmetry].
  - apply in_rev in Hc. pose proof (find_none _ _ Hf c Hc) as Hc'.
    simpl in Hc'. rewrite Hup, String.eqb_refl in Hc'. discriminate.
Qed.

(** What the aggregator does emit: when every requested symbol is,
    case-insensitively, a full column name, the result is the frames of
    the resolved columns, one after the other in the order of the
    request. *)
Lemma lineage_data_for_column_names (df : DataFrame) (genes : list string)
    (lineage_col : string) :
  find_lineage_col (columns df) = Some lineage_col ->
  genes <> [] ->
  (forall g, In g genes -> exists c, In c (columns df) /\ upper c = upper g) ->
  get_lineage_data df genes
  = Some (List.concat
            (map (fun g => lineage_frame df lineage_col
                             (dict_get_default (upper g) g
                                (df_cols_upper (columns df))))
                 genes)).
Proof.
  intros Hlin Hne Hall. unfold get_lineage_data. rewrite Hlin.
  set (d := df_cols_upper (columns df)).
  assert (Hkeep : filter (fun g => dict_mem (upper g) d) genes = genes).
  { clear Hne. induction genes as [|g genes IH]; simpl; [reflexivity|].
    destruct (cols_upper_hit g (columns df) (Hall g (or_introl eq_refl)))
      as (c & Hget & _).
    unfold dict_mem at 1. fold d in Hget. rewrite Hget.
    f_equal. apply IH. intros g' Hg'. apply Hall. now right. }
  rewrite Hkeep.
  assert (Hres : flat_map
            (fun gene => if str_in gene (columns df)
                         then [lineage_frame df lineage_col gene] else [])
            (map (fun g => dict_get_default (upper g) g d) genes)
          = map (fun g => lineage_frame df lineage_col
                            (dict_get_default (upper g) g d)) genes).
  { clear Hne Hkeep. induction genes as [|g genes IH]; simpl; [reflexivity|].
    destruct (cols_upper_hit g (columns df) (Hall g (or_introl eq_refl)))
      as (c & Hget & Hin & _).
    unfold dict_get_default at 1 3. fold d in Hget. rewrite Hget.
    rewrite (proj2 (str_in_In c (columns df)) Hin). simpl.
    f_equal. apply IH. intros g' Hg'. apply Hall. now right. }
  destruct genes as [|g genes]; [congruence|].
  simpl map at 1. cbv iota. rewrite Hres. reflexivity.
Qed.

(** C4 on a table in the DepMap layout: the ranking shows the column
    "MYC (4609)" under the symbol "MYC", the matcher hands "MYC" on, and
    the aggregator, which looks "MYC" up among the full column names,
    finds nothing and returns no data although the lineage column and
    the score column are both there; asked for the full column name it
    does emit the eleven records. *)
Lemma lineage_lookup_misses_extracted_symbol :
  compute_gene_rankings sort_keeping_ties depmap_table
  = (Some depmap_ranking, 11%nat, None) /\
  map gene_raw depmap_ranking = ["MYC (4609)"; "PTEN"] /\
  filter_genes_by_list depmap_ranking ["myc"] = (["MYC"], []) /\
  find_lineage_col (columns depmap_table) = Some "Lineage" /\
  get_lineage_data depmap_table ["MYC"] = None /\
  option_map (@List.length _) (get_lineage_data depmap_table ["MYC (4609)"])
  = Some 11%nat /\
  option_map (map lr_gene) (get_lineage_data depmap_table ["MYC"; "pten"])
  = Some (repeat "PTEN" 11).
Proof.
  repeat split; vm_compute; reflexivity.
Qed.

Lemma cols_upper_get_some (k c : string) (cols : list string) :
  dict_get k (df_cols_upper cols) = Some c -> In c cols /\ upper c = k.
Proof.
  rewrite cols_upper_get. intros Hf. apply find_some in Hf as [Hin Heq].
  apply String.eqb_eq in Heq. split; [now apply in_rev | now symmetry].
Qed.

Lemma in_combine_nth {A B : Type} (l1 : list A) (l2 : list B) (a : A) (b : B) :
  In (a, b) (combine l1 l2) ->
  exists i, nth_error l1 i = Some a /\ nth_error l2 i = Some b.
Proof.
  revert l2. induction l1 as [|x l1 IH]; intros l2; [intros []|].
  destruct l2 as [|y l2]; [intros []|]. simpl.
  intros [[= -> ->] | Hin].
  - now exists 0%nat.
  - destruct (IH l2 Hin) as (i & H1 & H2). now exists (S i).
Qed.

Lemma lineage_frame_In df lineage_col gene rec :
  In rec (lineage_frame df lineage_col gene) ->
  lr_gene rec = gene /\
  exists l s i,
    getitem df lineage_col = Some l /\ getitem df gene = Some s /\
    nth_error (cells l) i = Some (lineage rec) /\
    nth_error (cells s) i = Some (crispr_score rec).
Proof.
  unfold lineage_frame.
  destruct (getitem df lineage_col) as [l|]; [|intros []].
  destruct (getitem df gene) as [s|]; [|intros []].
  intros Hin. apply in_map_iff in Hin as ([lv sv] & <- & Hin).
  split; [reflexivity|]. exists l, s.
  destruct (in_combine_nth _ _ _ _ Hin) as (i & H1 & H2).
  exists i. auto.
Qed.

(** What the aggregator returns was built on the lineage column that
    the search found, from columns that the request names. *)
Lemma lineage_data_some_inv :
  forall df genes recs,
    get_lineage_data df genes = Some recs ->
    exists lineage_col,
      find_lineage_col (columns df) = Some lineage_col /\
      forall rec, In rec recs ->
        In (lr_gene rec) (columns df) /\
        (exists g, In g genes /\ upper g = upper (lr_gene rec)) /\
        exists l s i,
          getitem df lineage_col = Some l /\
          getitem df (lr_gene rec) = Some s /\
          nth_error (cells l) i = Some (lineage rec) /\
          nth_error (cells s) i = Some (crispr_score rec).
Proof.
  intros df genes recs. unfold get_lineage_data.
  destruct (find_lineage_col (columns df)) as [lc|]; [|discriminate].
  set (d := df_cols_upper (columns df)).
  destruct (map _ (filter _ genes)) as [|a l] eqn:Hactual; [discriminate|].
  rewrite <- Hactual. clear a l Hactual.
  set (actual := map (fun g => dict_get_default (upper g) g d)
                     (filter (fun g => dict_mem (upper g) d) genes)).
  destruct (flat_map _ actual) as [|fr frs] eqn:Hres; [discriminate|].
  rewrite <- Hres. clear fr frs Hres. intros [= <-].
  exists lc. split; [reflexivity|]. intros rec Hrec.
  apply in_concat in Hrec as (frame & Hframe & Hrec).
  apply in_flat_map in Hframe as (gene & Hgene & Hframe).
  destruct (str_in gene (columns df)) eqn:Hcol; [|destruct Hframe].
  destruct Hframe as [<- | []].
  destruct (lineage_frame_In _ _ _ _ Hrec) as (Hname & Hrow).
  rewrite Hname. split; [now apply str_in_In|]. split; [|exact Hrow].
  unfold actual in Hgene. apply in_map_iff in Hgene as (g & Hg & Hin).
  apply filter_In in Hin as [Hin Hmem]. exists g. split; [exact Hin|].
  unfold dict_mem in Hmem. unfold dict_get_default in Hg.
  destruct (dict_get (upper g) d) as [c|] eqn:Hget; [|discriminate]. subst c.
  unfold d in Hget. apply cols_upper_get_some in Hget as [_ Hup].
  now symmetry.
Qed.

(** ** Lineage column selection (C8) *)

(** C8: the lineage column is the first column whose lower-cased name
    contains "lineage" and does not contain "sub"; among "Lineage",
    "Lineage_Sub_type" and "MYC (4609)" it is "Lineage".  When no
    column qualifies the aggregator returns no data; when it returns
    records, each holds a cell of that column and the score of the same
    row; and when every requested symbol is a column name up to letter
    case, it returns the frames built on that column, one per symbol. *)
Theorem lineage_column_selection :
  (forall c, is_lineage_name c = true <->
             (exists a b, lower c = (a ++ "lineage" ++ b)%string) /\
             ~ (exists a b, lower c = (a ++ "sub" ++ b)%string)) /\
  (forall cols c,
      find_lineage_col cols = Some c <->
      exists pre post, cols = pre ++ c :: post /\ is_lineage_name c = true /\
                       forall x, In x pre -> is_lineage_name x = false) /\
  find_lineage_col ["Lineage"; "Lineage_Sub_type"; "MYC (4609)"] = Some "Lineage" /\
  (forall df genes,
      (forall c, In c (columns df) -> is_lineage_name c = false) ->
      get_lineage_data df genes = None) /\
  (forall df genes recs,
      get_lineage_data df genes = Some recs ->
      exists lineage_col,
        find_lineage_col (columns df) = Some lineage_col /\
        forall rec, In rec recs ->
          exists l s i,
            getitem df lineage_col = Some l /\
            getitem df (lr_gene rec) = Some s /\
            nth_error (cells l) i = Some (lineage rec) /\
            nth_error (cells s) i = Some (crispr_score rec)) /\
  (forall df genes lineage_col,
      find_lineage_col (columns df) = Some lineage_col ->
      genes <> [] ->
      (forall g, In g genes -> exists c, In c (columns df) /\ upper c = upper g) ->
      get_lineage_data df genes
      = Some (List.concat
                (map (fun g => lineage_frame df lineage_col
                                 (dict_get_default (upper g) g
                                    (df_cols_upper (columns df))))
                     genes))).
Proof.
  split; [exact is_lineage_name_spec|].
  split; [intros cols c; apply find_first_spec|].
  split; [reflexivity|].
  split; [|split].
  - intros df genes Hno. unfold get_lineage_data.
    now rewrite (proj2 (find_lineage_col_none _) Hno).
  - intros df genes recs Hrun.
    destruct (lineage_data_some_inv df genes recs Hrun) as (lc & Hlc & Hrecs).
    exists lc. split; [exact Hlc|]. intros rec Hrec.
    exact (proj2 (proj2 (Hrecs rec Hrec))).
  - exact lineage_data_for_column_names.
Qed.

Lemma lineage_column_selection_witness :
  (forall c, In c (columns scores_only_table) -> is_lineage_name c = false) /\
  get_lineage_data scores_only_table ["PTEN"] = None /\
  find_lineage_col (columns subtype_first_table) = Some "Lineage" /\
  get_lineage_data subtype_first_table ["myc (4609)"]
  = Some (lineage_frame subtype_first_table "Lineage" "MYC (4609)") /\
  option_map (map lineage) (get_lineage_data subtype_first_table ["myc (4609)"])
  = Some (map (fun t => ObjCell (Some t)) tissue).
Proof.
  assert (Hno : forall c, In c (columns scores_only_table) ->
                          is_lineage_name c = false).
  { intros c [<- | []]. reflexivity. }
  assert (Hlc : find_lineage_col (columns subtype_first_table) = Some "Lineage")
    by reflexivity.
  assert (Hne : ["myc (4609)"] <> []) by discriminate.
  assert (Hall : forall g, In g ["myc (4609)"] ->
            exists c, In c (columns subtype_first_table) /\ upper c = upper g).
  { intros g [<- | []]. exists "MYC (4609)". split; [|reflexivity].
    right. right. left. reflexivity. }
  assert (Hrun : get_lineage_data subtype_first_table ["myc (4609)"]
                 = Some (lineage_frame subtype_first_table "Lineage" "MYC (4609)")).
  { refine (eq_trans
              (proj2 (proj2 (proj2 (proj2 (proj2 lineage_column_selection))))
                 subtype_first_table _ _ Hlc Hne Hall) _).
    vm_compute. reflexivity. }
  split; [exact Hno|].
  split; [exact (proj1 (proj2 (proj2 (proj2 lineage_column_selection)))
                   scores_only_table _ Hno)|].
  split; [exact Hlc|]. split; [exact Hrun|].
  vm_compute. reflexivity.
Defined.

(** * Further properties of the code *)

(** ** Symbol extraction, continued *)

Lemma span_all_chars (p : ascii -> bool) (s : string) :
  all_chars p s = true -> span p s = (s, EmptyString).
Proof.
  induction s as [|c s IH]; simpl; [reflexivity|].
  intros H. apply andb_true_iff in H as [Hc Hs]. now rewrite Hc, (IH Hs).
Qed.

Lemma extract_token_only (s : string) :
  all_chars is_token_char s = true -> extract_gene_name s = s.
Proof.
  intros H. unfold extract_gene_name. rewrite (span_all_chars _ _ H). simpl.
  now destruct s.
Qed.

Lemma extract_cases (col : string) :
  extract_gene_name col = col \/
  (all_chars is_token_char (extract_gene_name col) = true /\
   exists rest, col = (extract_gene_name col ++ rest)%string).
Proof.
  unfold extract_gene_name.
  pose proof (span_split is_token_char col) as Hsplit.
  pose proof (span_all is_token_char col) as Htok.
  destruct (span is_token_char col) as [tok rest]; simpl in *.
  destruct tok as [|t tok]; [now left|].
  destruct (snd (span is_space rest)) as [|c r]; [now left|].
  destruct (Ascii.eqb_spec c "(") as [-> | Hc].
  - right. split; [exact Htok | now exists rest].
  - left. destruct c as [[] [] [] [] [] [] [] []]; congruence.
Qed.

(** X1: extracting the symbol of an extracted symbol changes nothing. *)
Theorem extract_gene_name_idempotent :
  forall col, extract_gene_name (extract_gene_name col) = extract_gene_name col.
Proof.
  intros col. destruct (extract_cases col) as [H | [Htok _]].
  - now rewrite !H.
  - now apply extract_token_only.
Qed.

(** X2: the symbol is a prefix of the column name, empty only for the
    empty name, and it is either the whole name or made of token
    characters only. *)
Theorem extract_gene_name_prefix :
  forall col,
    startswith (extract_gene_name col) col = true /\
    nonempty (extract_gene_name col) = nonempty col /\
    (extract_gene_name col = col \/
     all_chars is_token_char (extract_gene_name col) = true).
Proof.
  intros col. split; [|split].
  - apply startswith_spec. destruct (extract_cases col) as [H | [_ Hpre]].
    + rewrite H. exists EmptyString. clear. induction col; simpl; congruence.
    + exact Hpre.
  - unfold extract_gene_name.
    pose proof (span_split is_token_char col) as Hsplit.
    destruct (span is_token_char col) as [tok rest]; simpl in *.
    destruct tok as [|t tok]; [reflexivity|].
    destruct (snd (span is_space rest)) as [|c r]; [reflexivity|].
    subst col.
    destruct c as [[] [] [] [] [] [] [] []]; reflexivity.
  - destruct (extract_cases col) as [H | [H _]]; auto.
Qed.

(** ** The downloaded file *)

Lemma lower_upper_char (c : ascii) : lower_char (upper_char c) = lower_char c.
Proof. destruct c as [[] [] [] [] [] [] [] []]; vm_compute; reflexivity. Qed.

Lemma lower_upper (s : string) : lower (upper s) = lower s.
Proof.
  unfold lower, upper. induction s as [|c s IH]; simpl; [reflexivity|].
  now rewrite lower_upper_char, IH.
Qed.

Lemma lower_char_lt (c : ascii) : Ascii.eqb "<" (lower_char c) = Ascii.eqb "<" c.
Proof. destruct c as [[] [] [] [] [] [] [] []]; vm_compute; reflexivity. Qed.

Lemma contains_char_cons (x c : ascii) (s : string) :
  contains (String x EmptyString) (String c s)
  = Ascii.eqb x c || contains (String x EmptyString) s.
Proof.
  change (contains (String x EmptyString) (String c s))
    with ((Ascii.eqb x c && startswith EmptyString s)
          || contains (String x EmptyString) s).
  destruct s; simpl; now rewrite andb_true_r.
Qed.

Lemma contains_lt_lower (s : string) : contains "<" (lower s) = contains "<" s.
Proof.
  unfold lower. induction s as [|c s IH]; [reflexivity|].
  change (map_chars lower_char (String c s))
    with (String (lower_char c) (map_chars lower_char s)).
  now rewrite !contains_char_cons, lower_char_lt, IH.
Qed.

Lemma contains_first_char (c : ascii) (sub s : string) :
  contains (String c sub) s = true -> contains (String c EmptyString) s = true.
Proof.
  rewrite !contains_spec. intros (a & b & ->).
  exists a, (sub ++ b)%string. reflexivity.
Qed.

(** X3: the check for a web page in place of the CSV file does not
    depend on the case of the line, and a line without the character
    "<" is never taken for a web page. *)
Theorem is_html_page_spec :
  (forall first_line, is_html_page (upper first_line) = is_html_page first_line) /\
  (forall first_line,
      contains "<" first_line = false -> is_html_page first_line = false).
Proof.
  split.
  - intros s. unfold is_html_page. now rewrite lower_upper.
  - intros s Hno. unfold is_html_page.
    rewrite <- contains_lt_lower in Hno.
    apply orb_false_iff. split; apply not_true_iff_false; intros H;
      apply contains_first_char in H; congruence.
Qed.

Lemma is_html_page_spec_witness :
  contains "<" "DepMap_ID,Lineage,MYC (4609)" = false /\
  is_html_page "DepMap_ID,Lineage,MYC (4609)" = false.
Proof.
  assert (H : contains "<" "DepMap_ID,Lineage,MYC (4609)" = false)
    by (vm_compute; reflexivity).
  split; [exact H | exact (proj2 is_html_page_spec _ H)].
Defined.

(** ** Gene lists typed or uploaded *)

Lemma all_chars_impl (p q : ascii -> bool) (s : string) :
  (forall c, p c = true -> q c = true) ->
  all_chars p s = true -> all_chars q s = true.
Proof.
  intros Hpq. induction s as [|c s IH]; simpl; [reflexivity|].
  intros H. apply andb_true_iff in H as [Hc Hs]. now rewrite (Hpq c Hc), IH.
Qed.

Lemma all_chars_app (p : ascii -> bool) (a b : string) :
  all_chars p (a ++ b) = all_chars p a && all_chars p b.
Proof.
  induction a as [|c a IH]; simpl; [reflexivity|].
  now rewrite IH, andb_assoc.
Qed.

(** The pieces of a split hold no separator, and no character the text
    did not hold. *)
Lemma split_on_pieces (q : ascii -> bool) (sep : ascii) (s : string) :
  all_chars q s = true ->
  forall piece, In piece (split_on sep s) ->
    all_chars (fun c => q c && negb (Ascii.eqb c sep)) piece = true.
Proof.
  induction s as [|c s IH]; simpl.
  - intros _ piece [<- | []]. reflexivity.
  - intros H. apply andb_true_iff in H as [Hc Hs]. specialize (IH Hs).
    destruct (Ascii.eqb c sep) eqn:Hsep.
    + intros piece [<- | Hin]; [reflexivity | now apply IH].
    + destruct (split_on sep s) as [|h t].
      * intros piece [<- | []]. simpl. now rewrite Hc, Hsep.
      * intros piece [<- | Hin].
        -- simpl. rewrite Hc, Hsep. simpl. apply IH. now left.
        -- apply IH. now right.
Qed.

Lemma replace_char_removes (a b : ascii) (s : string) :
  a <> b ->
  all_chars (fun c => negb (Ascii.eqb c a)) (replace_char a b s) = true.
Proof.
  intros Hab. unfold replace_char. induction s as [|c s IH]; simpl; [reflexivity|].
  rewrite IH, andb_true_r. destruct (Ascii.eqb_spec c a) as [-> | Hc].
  - apply negb_true_iff. apply Ascii.eqb_neq. congruence.
  - apply negb_true_iff. now apply Ascii.eqb_neq.
Qed.

Lemma replace_char_keeps (q : ascii -> bool) (a b : ascii) (s : string) :
  q b = true -> all_chars q s = true -> all_chars q (replace_char a b s) = true.
Proof.
  intros Hb. unfold replace_char. induction s as [|c s IH]; simpl; [reflexivity|].
  intros H. apply andb_true_iff in H as [Hc Hs]. rewrite (IH Hs), andb_true_r.
  now destruct (Ascii.eqb c a).
Qed.

Lemma all_chars_lstrip (q : ascii -> bool) (s : string) :
  all_chars q s = true -> all_chars q (lstrip s) = true.
Proof.
  unfold lstrip. intros H. rewrite (span_split is_space s), all_chars_app in H.
  now apply andb_true_iff in H as [_ H].
Qed.

Lemma all_chars_rstrip (q : ascii -> bool) (s : string) :
  all_chars q s = true -> all_chars q (rstrip s) = true.
Proof.
  induction s as [|c s IH]; simpl; [reflexivity|].
  intros H. apply andb_true_iff in H as [Hc Hs]. specialize (IH Hs).
  destruct (rstrip s) as [|x r].
  - destruct (is_space c); simpl; [reflexivity | now rewrite Hc].
  - simpl in *. now rewrite Hc, IH.
Qed.

Lemma all_chars_strip (q : ascii -> bool) (s : string) :
  all_chars q s = true -> all_chars q (strip s) = true.
Proof. intros H. now apply all_chars_rstrip, all_chars_lstrip. Qed.

Lemma rstrip_idempotent (s : string) : rstrip (rstrip s) = rstrip s.
Proof.
  induction s as [|c s IH]; simpl; [reflexivity|].
  destruct (rstrip s) as [|x r] eqn:Hr.
  - destruct (is_space c) eqn:Hc; simpl; [reflexivity | now rewrite Hc].
  - change (rstrip (String c (String x r))) with
      (match rstrip (String x r) with
       | EmptyString => if is_space c then EmptyString else String c EmptyString
       | String _ _ as r' => String c r'
       end).
    now rewrite IH.
Qed.

Lemma lstrip_head (s : string) :
  lstrip s = EmptyString \/
  exists c r, lstrip s = String c r /\ is_space c = false.
Proof.
  unfold lstrip. induction s as [|c s IH]; simpl; [now left|].
  destruct (is_space c) eqn:Hc.
  - destruct (span is_space s) as [a b]. exact IH.
  - right. now exists c, s.
Qed.

Lemma lstrip_fixed (c : ascii) (r : string) :
  is_space c = false -> lstrip (String c r) = String c r.
Proof. intros Hc. unfold lstrip. simpl. now rewrite Hc. Qed.

Lemma rstrip_head (c : ascii) (r : string) :
  is_space c = false -> exists r', rstrip (String c r) = String c r'.
Proof.
  intros Hc. simpl. destruct (rstrip r) as [|x r'].
  - rewrite Hc. now exists EmptyString.
  - now exists (String x r').
Qed.

(** Stripping a stripped string changes nothing. *)
Lemma strip_idempotent (s : string) : strip (strip s) = strip s.
Proof.
  unfold strip. destruct (lstrip_head s) as [-> | (c & r & -> & Hc)].
  - reflexivity.
  - destruct (rstrip_head c r Hc) as [r' Hr'].
    rewrite Hr' at 1. rewrite (lstrip_fixed c r' Hc), <- Hr'.
    apply rstrip_idempotent.
Qed.

Lemma nonempty_true (s : string) : nonempty s = true <-> s <> EmptyString.
Proof. destruct s; simpl; split; congruence. Qed.

Lemma clean_lines_In (q : ascii -> bool) (text g : string) :
  all_chars q text = true -> In g (clean_lines text) ->
  g <> EmptyString /\ strip g = g /\
  all_chars (fun c => q c && negb (Ascii.eqb c nl)) g = true.
Proof.
  intros Hq Hg. unfold clean_lines in Hg.
  apply in_map_iff in Hg as (g0 & <- & Hg0).
  apply filter_In in Hg0 as [Hin Hne].
  split; [now apply nonempty_true|]. split; [apply strip_idempotent|].
  apply all_chars_strip. now apply (split_on_pieces q nl text).
Qed.

(** X4: every gene read from the text box of the ranking tab is
    non-empty, has no blank at either end and holds no space, comma or
    line break; in the other tabs, where a space does not separate, it
    holds no comma or line break. *)
Theorem gene_input_clean :
  (forall gene_input g,
      In g (genes_of_interest gene_input) ->
      g <> EmptyString /\ strip g = g /\
      all_chars (fun c => negb (Ascii.eqb c " ") && negb (Ascii.eqb c ",")
                          && negb (Ascii.eqb c nl)) g = true) /\
  (forall gene_input g,
      In g (genes_for_box gene_input) ->
      g <> EmptyString /\ strip g = g /\
      all_chars (fun c => negb (Ascii.eqb c ",") && negb (Ascii.eqb c nl)) g
      = true).
Proof.
  split; intros text g Hg.
  - unfold genes_of_interest in Hg.
    apply (clean_lines_In
             (fun c => negb (Ascii.eqb c " ") && negb (Ascii.eqb c ","))) in Hg.
    + destruct Hg as (Hne & Hstrip & Hall). repeat split; trivial.
    + set (t := replace_char "," nl text).
      assert (H1 : all_chars (fun c => negb (Ascii.eqb c ",")) t = true)
        by (apply replace_char_removes; discriminate).
      assert (H2 : all_chars (fun c => negb (Ascii.eqb c ","))
                     (replace_char " " nl t) = true)
        by (apply replace_char_keeps; [reflexivity | exact H1]).
      assert (H3 : all_chars (fun c => negb (Ascii.eqb c " "))
                     (replace_char " " nl t) = true)
        by (apply replace_char_removes; discriminate).
      clear H1. induction (replace_char " " nl t) as [|c s IH]; simpl in *;
        [reflexivity|].
      apply andb_true_iff in H2 as [Ha Hb]. apply andb_true_iff in H3 as [Hc Hd].
      now rewrite Ha, Hc, IH.
  - unfold genes_for_box in Hg.
    apply (clean_lines_In (fun c => negb (Ascii.eqb c ","))) in Hg.
    + exact Hg.
    + apply replace_char_removes. discriminate.
Qed.

Lemma gene_input_clean_witness :
  In "E2F8" (genes_of_interest "KIF18A, E2F8  CCNB1") /\
  strip "E2F8" = "E2F8" /\
  In "MYC B" (genes_for_box " KIF18A,MYC B ") /\
  strip "MYC B" = "MYC B".
Proof.
  assert (H1 : In "E2F8" (genes_of_interest "KIF18A, E2F8  CCNB1"))
    by (vm_compute; auto).
  assert (H2 : In "MYC B" (genes_for_box " KIF18A,MYC B "))
    by (vm_compute; auto).
  split; [exact H1|].
  split; [exact (proj1 (proj2 (proj1 gene_input_clean _ _ H1)))|].
  split; [exact H2|].
  exact (proj1 (proj2 (proj2 gene_input_clean _ _ H2))).
Defined.

Lemma split_on_not_nil (sep : ascii) (s : string) : split_on sep s <> [].
Proof.
  destruct s as [|c s]; simpl; [discriminate|].
  destruct (Ascii.eqb c sep); [discriminate|].
  destruct (split_on sep s); discriminate.
Qed.

(** Splitting distributes over a separator. *)
Lemma split_on_app (sep : ascii) (a b : string) :
  split_on sep (a ++ String sep b) = split_on sep a ++ split_on sep b.
Proof.
  induction a as [|c a IH]; simpl.
  - now rewrite Ascii.eqb_refl.
  - destruct (Ascii.eqb c sep); [now rewrite IH|].
    rewrite IH. pose proof (split_on_not_nil sep a) as Hne.
    destruct (split_on sep a) as [|h t]; [congruence | reflexivity].
Qed.

Lemma split_on_none (sep : ascii) (s : string) :
  all_chars (fun c => negb (Ascii.eqb c sep)) s = true -> split_on sep s = [s].
Proof.
  induction s as [|c s IH]; simpl; [reflexivity|].
  intros H. apply andb_true_iff in H as [Hc Hs].
  apply negb_true_iff in Hc. now rewrite Hc, (IH Hs).
Qed.

Lemma clean_lines_app (a b : string) :
  clean_lines (a ++ String nl b) = clean_lines a ++ clean_lines b.
Proof.
  unfold clean_lines. now rewrite split_on_app, filter_app, map_app.
Qed.

Lemma lstrip_space (c : ascii) (s : string) :
  is_space c = true -> lstrip (String c s) = lstrip s.
Proof.
  intros Hc. unfold lstrip. simpl. rewrite Hc. now destruct (span is_space s).
Qed.

Lemma strip_space (c : ascii) (s : string) :
  is_space c = true -> strip (String c s) = strip s.
Proof. intros Hc. unfold strip. now rewrite (lstrip_space c s Hc). Qed.

(** A blank in front of a text adds no line to it. *)
Lemma clean_lines_space (c : ascii) (u : string) :
  is_space c = true -> clean_lines (String c u) = clean_lines u.
Proof.
  intros Hc. unfold clean_lines.
  change (split_on nl (String c u))
    with (if Ascii.eqb c nl then EmptyString :: split_on nl u
          else match split_on nl u with
               | h :: t => String c h :: t
               | [] => [String c EmptyString]
               end).
  destruct (Ascii.eqb c nl); [reflexivity|].
  pose proof (split_on_not_nil nl u) as Hne.
  destruct (split_on nl u) as [|h t]; [congruence|].
  cbn [filter map]. rewrite !(strip_space c h Hc).
  destruct (nonempty (strip h)); [|reflexivity].
  cbn [map]. now rewrite (strip_space c h Hc).
Qed.

Lemma clean_lines_blanks (pre u : string) :
  all_chars is_space pre = true -> clean_lines (pre ++ u) = clean_lines u.
Proof.
  induction pre as [|c pre IH]; simpl; [reflexivity|].
  intros H. apply andb_true_iff in H as [Hc Hpre].
  now rewrite (clean_lines_space c _ Hc), IH.
Qed.

Lemma rstrip_blanks (g w : string) :
  all_chars (fun c => negb (is_space c)) g = true ->
  all_chars is_space w = true -> rstrip (g ++ w) = g.
Proof.
  intros Hg Hw. induction g as [|c g IH]; simpl.
  - induction w as [|x w IHw]; simpl; [reflexivity|].
    simpl in Hw. apply andb_true_iff in Hw as [Hx Hw].
    now rewrite (IHw Hw), Hx.
  - simpl in Hg. apply andb_true_iff in Hg as [Hc Hg].
    apply negb_true_iff in Hc. rewrite (IH Hg).
    destruct g; [now rewrite Hc | reflexivity].
Qed.

Lemma name_chars (g : string) :
  all_chars is_name_char g = true ->
  all_chars (fun c => negb (is_space c)) g = true /\
  all_chars (fun c => negb (Ascii.eqb c ",")) g = true /\
  all_chars (fun c => negb (Ascii.eqb c " ")) g = true /\
  all_chars (fun c => negb (Ascii.eqb c nl)) g = true.
Proof.
  intros H. repeat split; (eapply all_chars_impl; [|exact H]); intros c;
    unfold is_name_char; destruct c as [[] [] [] [] [] [] [] []];
    vm_compute; congruence.
Qed.

(** A clean name followed by blanks strips to the name. *)
Lemma strip_name (g w : string) :
  clean_name g = true -> all_chars is_space w = true -> strip (g ++ w) = g.
Proof.
  unfold clean_name. intros Hg Hw. apply andb_true_iff in Hg as [Hne Hg].
  destruct (name_chars g Hg) as (Hns & _).
  unfold strip. destruct g as [|c g]; [discriminate|].
  simpl in Hns. apply andb_true_iff in Hns as [Hc Hns'].
  apply negb_true_iff in Hc.
  change ((String c g ++ w)%string) with (String c (g ++ w)).
  rewrite (lstrip_fixed c _ Hc).
  apply (rstrip_blanks (String c g) w); [|exact Hw].
  simpl. now rewrite Hc, Hns'.
Qed.

Lemma first_break (sep : string) :
  has_char (fun c => Ascii.eqb c nl) sep = true ->
  exists w1 w2,
    sep = (w1 ++ String nl w2)%string /\
    all_chars (fun c => negb (Ascii.eqb c nl)) w1 = true.
Proof.
  unfold has_char. rewrite negb_true_iff.
  induction sep as [|c sep IH]; simpl; [discriminate|].
  destruct (Ascii.eqb_spec c nl) as [-> | Hc]; simpl.
  - intros _. now exists EmptyString, sep.
  - intros H. destruct (IH H) as (w1 & w2 & -> & Hw1).
    exists (String c w1), w2. split; [reflexivity|]. simpl.
    rewrite Hw1, andb_true_r. apply negb_true_iff. now apply Ascii.eqb_neq.
Qed.

Lemma append_assoc (a b c : string) : ((a ++ b) ++ c = a ++ (b ++ c))%string.
Proof. induction a as [|x a IH]; simpl; [reflexivity | now rewrite IH]. Qed.

Lemma append_empty (a : string) : (a ++ EmptyString)%string = a.
Proof. induction a as [|x a IH]; simpl; [reflexivity | now rewrite IH]. Qed.

(** Names joined by blanks with a line break among them are read back as
    they were. *)
Lemma clean_lines_join (sep : string) (genes : list string) :
  all_chars is_space sep = true ->
  has_char (fun c => Ascii.eqb c nl) sep = true ->
  forallb clean_name genes = true ->
  clean_lines (join sep genes) = genes.
Proof.
  intros Hsp Hnl Hgenes. unfold join.
  destruct (first_break sep Hnl) as (w1 & w2 & Hsep & Hw1).
  assert (Hw : all_chars is_space w1 = true /\ all_chars is_space w2 = true).
  { rewrite Hsep in Hsp. rewrite all_chars_app in Hsp.
    apply andb_true_iff in Hsp as [H1 H2].
    change (all_chars is_space (String nl w2))
      with (is_space nl && all_chars is_space w2) in H2.
    apply andb_true_iff in H2 as [_ H2]. now split. }
  destruct Hw as [Hs1 Hs2].
  assert (Hone : forall g, clean_name g = true -> clean_lines g = [g]).
  { intros g Hg. unfold clean_lines.
    pose proof (strip_name g EmptyString Hg eq_refl) as Hstrip.
    rewrite append_empty in Hstrip.
    unfold clean_name in Hg. apply andb_true_iff in Hg as [Hne Hg].
    destruct (name_chars g Hg) as (_ & _ & _ & Hn).
    rewrite (split_on_none nl g Hn). cbn [filter].
    rewrite Hstrip, Hne. cbn [map]. now rewrite Hstrip. }
  induction genes as [|g genes IH]; [reflexivity|].
  simpl in Hgenes. apply andb_true_iff in Hgenes as [Hg Hrest].
  specialize (IH Hrest).
  destruct genes as [|g' genes]; [now apply Hone|].
  change (String.concat sep (g :: g' :: genes))
    with ((g ++ sep ++ String.concat sep (g' :: genes))%string).
  rewrite Hsep.
  replace (g ++ (w1 ++ String nl w2) ++ String.concat (w1 ++ String nl w2) (g' :: genes))%string
    with ((g ++ w1) ++ String nl (w2 ++ String.concat (w1 ++ String nl w2) (g' :: genes)))%string
    by (rewrite !append_assoc; reflexivity).
  rewrite clean_lines_app, (clean_lines_blanks w2 _ Hs2), <- Hsep, IH.
  f_equal. unfold clean_lines.
  assert (Hn : all_chars (fun c => negb (Ascii.eqb c nl)) (g ++ w1) = true).
  { rewrite all_chars_app, Hw1, andb_true_r.
    unfold clean_name in Hg. apply andb_true_iff in Hg as [_ Hg].
    now destruct (name_chars g Hg) as (_ & _ & _ & Hn). }
  rewrite (split_on_none nl _ Hn). cbn [filter].
  rewrite (strip_name g w1 Hg Hs1).
  pose proof Hg as Hg'. unfold clean_name in Hg'.
  apply andb_true_iff in Hg' as [Hne _]. rewrite Hne. cbn [map].
  now rewrite (strip_name g w1 Hg Hs1).
Qed.

Lemma map_chars_app (f : ascii -> ascii) (a b : string) :
  map_chars f (a ++ b) = (map_chars f a ++ map_chars f b)%string.
Proof. induction a as [|c a IH]; simpl; [reflexivity | now rewrite IH]. Qed.

Lemma map_chars_concat (f : ascii -> ascii) (sep : string) (l : list string) :
  map_chars f (String.concat sep l)
  = String.concat (map_chars f sep) (map (map_chars f) l).
Proof.
  induction l as [|x l IH]; [reflexivity|].
  destruct l as [|y l]; [reflexivity|].
  change (String.concat sep (x :: y :: l))
    with ((x ++ sep ++ String.concat sep (y :: l))%string).
  rewrite !map_chars_app, IH. reflexivity.
Qed.

Lemma map_chars_compose (f g : ascii -> ascii) (s : string) :
  map_chars g (map_chars f s) = map_chars (fun c => g (f c)) s.
Proof. induction s as [|c s IH]; simpl; [reflexivity | now rewrite IH]. Qed.

Lemma map_chars_fixed (f : ascii -> ascii) (p : ascii -> bool) (s : string) :
  (forall c, p c = true -> f c = c) -> all_chars p s = true -> map_chars f s = s.
Proof.
  intros Hf. induction s as [|c s IH]; simpl; [reflexivity|].
  intros H. apply andb_true_iff in H as [Hc Hs]. now rewrite (Hf c Hc), IH.
Qed.

Lemma all_chars_map_chars (p : ascii -> bool) (f : ascii -> ascii) (s : string) :
  all_chars p (map_chars f s) = all_chars (fun c => p (f c)) s.
Proof. induction s as [|c s IH]; simpl; [reflexivity | now rewrite IH]. Qed.

Lemma has_char_impl (p q : ascii -> bool) (s : string) :
  (forall c, p c = true -> q c = true) ->
  has_char p s = true -> has_char q s = true.
Proof.
  intros Hpq. unfold has_char. rewrite !negb_true_iff.
  intros Hp. apply not_true_iff_false. intros Hq.
  apply not_true_iff_false in Hp. apply Hp.
  eapply all_chars_impl; [|exact Hq].
  intros c Hc. apply negb_true_iff in Hc. apply negb_true_iff.
  apply not_true_iff_false. intros H. apply Hpq in H. congruence.
Qed.

(** The same after the separators of a tab have been turned into line
    breaks by [f]. *)
Lemma clean_lines_replaced (f : ascii -> ascii) (sep : string) (genes : list string) :
  (forall c, is_name_char c = true -> f c = c) ->
  all_chars (fun c => is_space (f c)) sep = true ->
  has_char (fun c => Ascii.eqb (f c) nl) sep = true ->
  forallb clean_name genes = true ->
  clean_lines (map_chars f (join sep genes)) = genes.
Proof.
  intros Hf Hsp Hnl Hgenes. unfold join. rewrite map_chars_concat.
  assert (Hmap : map (map_chars f) genes = genes).
  { clear Hsp Hnl. induction genes as [|g genes IH]; simpl; [reflexivity|].
    simpl in Hgenes. apply andb_true_iff in Hgenes as [Hg Hrest].
    unfold clean_name in Hg. apply andb_true_iff in Hg as [_ Hg].
    now rewrite (map_chars_fixed f is_name_char g Hf Hg), IH. }
  rewrite Hmap. apply clean_lines_join; trivial.
  - now rewrite all_chars_map_chars.
  - unfold has_char in *. now rewrite all_chars_map_chars.
Qed.

(** X5: clean gene names (non-empty, without blanks and commas) joined by
    a separator made of blanks and commas are read back unchanged, in
    the same order: by the text-file reader when the separator is
    blank and holds a line break, by the box-plot and annotation tabs
    when it holds a line break or a comma, and by the ranking tab when
    it holds a line break, a comma or a space. *)
Theorem gene_input_round_trip :
  forall sep genes,
    forallb clean_name genes = true ->
    all_chars (fun c => is_space c || Ascii.eqb c ",") sep = true ->
    (all_chars is_space sep = true ->
     has_char (fun c => Ascii.eqb c nl) sep = true ->
     genes_from_txt (join sep genes) = genes) /\
    (has_char (fun c => Ascii.eqb c nl || Ascii.eqb c ",") sep = true ->
     genes_for_box (join sep genes) = genes) /\
    (has_char (fun c => Ascii.eqb c nl || Ascii.eqb c "," || Ascii.eqb c " ")
              sep = true ->
     genes_of_interest (join sep genes) = genes).
Proof.
  intros sep genes Hgenes Hsep. split; [|split].
  - intros Hsp Hnl. now apply clean_lines_join.
  - intros Hbr. unfold genes_for_box, replace_char.
    apply clean_lines_replaced; trivial.
    + intros c. destruct c as [[] [] [] [] [] [] [] []]; vm_compute; congruence.
    + eapply all_chars_impl; [|exact Hsep].
      intros c. destruct c as [[] [] [] [] [] [] [] []]; vm_compute; congruence.
    + eapply has_char_impl; [|exact Hbr].
      intros c. destruct c as [[] [] [] [] [] [] [] []]; vm_compute; congruence.
  - intros Hbr. unfold genes_of_interest, replace_char.
    rewrite map_chars_compose.
    apply clean_lines_replaced; trivial.
    + intros c. destruct c as [[] [] [] [] [] [] [] []]; vm_compute; congruence.
    + eapply all_chars_impl; [|exact Hsep].
      intros c. destruct c as [[] [] [] [] [] [] [] []]; vm_compute; congruence.
    + eapply has_char_impl; [|exact Hbr].
      intros c. destruct c as [[] [] [] [] [] [] [] []]; vm_compute; congruence.
Qed.

Lemma gene_input_round_trip_witness :
  genes_of_interest (join ", " ["KIF18A"; "E2F1"; "MYC"]) = ["KIF18A"; "E2F1"; "MYC"] /\
  genes_for_box (join ", " ["KIF18A"; "E2F1"; "MYC"]) = ["KIF18A"; "E2F1"; "MYC"] /\
  genes_from_txt (join (String "013" (String nl "")) ["KIF18A"; "E2F1"])
  = ["KIF18A"; "E2F1"].
Proof.
  assert (H3 : forallb clean_name ["KIF18A"; "E2F1"; "MYC"] = true)
    by (vm_compute; reflexivity).
  assert (H2 : forallb clean_name ["KIF18A"; "E2F1"] = true)
    by (vm_compute; reflexivity).
  assert (Hc : all_chars (fun c => is_space c || Ascii.eqb c ",") ", " = true)
    by (vm_compute; reflexivity).
  assert (Hr : all_chars (fun c => is_space c || Ascii.eqb c ",")
                 (String "013" (String nl "")) = true)
    by (vm_compute; reflexivity).
  split; [|split].
  - exact (proj2 (proj2 (gene_input_round_trip _ _ H3 Hc)) eq_refl).
  - exact (proj1 (proj2 (gene_input_round_trip _ _ H3 Hc)) eq_refl).
  - exact (proj1 (gene_input_round_trip _ _ H2 Hr) eq_refl eq_refl).
Defined.

(** ** Classification and ranking, continued *)

Lemma meta_cols_filter {stats : Statistics} (df : DataFrame) :
  meta_cols df = filter (fun c => negb (is_gene_col (col_data c))) (df_columns df).
Proof.
  unfold meta_cols. induction (df_columns df) as [|x cols IH]; simpl; [reflexivity|].
  destruct (classify_columns cols) as [g m]; simpl in *.
  destruct (is_gene_col (col_data x)); simpl; now rewrite IH.
Qed.

Lemma filter_partition_perm {A : Type} (f : A -> bool) (l : list A) :
  Permutation (filter f l ++ filter (fun x => negb (f x)) l) l.
Proof.
  induction l as [|x l IH]; simpl; [constructor|].
  destruct (f x); simpl.
  - now constructor.
  - rewrite <- Permutation_middle. now constructor.
Qed.

(** X6: the classifier sorts every column of the table into exactly one
    of the two lists: score columns and metadata columns together are a
    rearrangement of all columns, each list keeps the column order of
    the table, and no column is in both. *)
Theorem classification_partitions_columns {stats : Statistics} :
  forall df,
    Permutation (gene_cols df ++ meta_cols df) (df_columns df) /\
    gene_cols df = filter (fun c => is_gene_col (col_data c)) (df_columns df) /\
    meta_cols df
    = filter (fun c => negb (is_gene_col (col_data c))) (df_columns df) /\
    (List.length (gene_cols df) + List.length (meta_cols df)
     = List.length (df_columns df))%nat /\
    (forall c, ~ (In c (gene_cols df) /\ In c (meta_cols df))).
Proof.
  intros df.
  assert (Hperm : Permutation (gene_cols df ++ meta_cols df) (df_columns df)).
  { rewrite gene_cols_filter, meta_cols_filter. apply filter_partition_perm. }
  split; [exact Hperm|]. split; [apply gene_cols_filter|].
  split; [apply meta_cols_filter|]. split.
  - rewrite <- (Permutation_length Hperm). apply eq_sym, length_app.
  - intros c [Hg Hm]. rewrite gene_cols_filter in Hg. rewrite meta_cols_filter in Hm.
    apply filter_In in Hg as [_ Hg]. apply filter_In in Hm as [_ Hm].
    rewrite Hg in Hm. discriminate.
Qed.

Lemma ranking_row_source {stats : Statistics} sort_values df rk n msg r :
  sort_values_contract sort_values ->
  compute_gene_rankings sort_values df = (Some rk, n, msg) ->
  In r rk ->
  exists c, In c (gene_cols df) /\ gene_raw r = col_name c /\
            mean_score r = mean (sample_values (col_data c)).
Proof.
  intros Hsort Hrun Hr. apply compute_gene_rankings_inv in Hrun. subst rk.
  rewrite build_rankings_rows in Hr.
  destruct (rows_from_In _ _ _ _ Hr) as (_ & Hin & _).
  apply (Permutation_in _ (proj1 (Hsort _))) in Hin.
  unfold column_means in Hin. apply in_map_iff in Hin as (c & Heq & Hc).
  exists c. injection Heq as H1 H2. auto.
Qed.



Lemma is_essential_iff (x : Q) : is_essential x = true <-> x < - (1 # 2).
Proof. apply Qltb_iff. Qed.

Lemma rows_from_essential (n i : nat) (s : ScoreSeries) :
  StronglySorted le_score s ->
  forall r, In r (rows_from n i s) ->
    (is_essential (mean_score r) = true <->
     (rank r < i + essential_count (rows_from n i s))%nat).
Proof.
  intros Hs. revert i. unfold essential_count.
  induction Hs as [|[col m] s Hs IH Hx]; intros i r; simpl; [intros []|].
  rewrite Forall_forall in Hx.
  destruct (is_essential m) eqn:Hm; simpl.
  - intros [<- | Hr]; simpl.
    + rewrite Hm. split; [lia | reflexivity].
    + rewrite (IH (S i) r Hr). lia.
  - assert (Hnone : filter (fun r => is_essential (mean_score r))
                      (rows_from n (S i) s) = []).
    { destruct (filter _ (rows_from n (S i) s)) as [|r' l] eqn:Hf; [reflexivity|].
      assert (Hr' : In r' (filter (fun r => is_essential (mean_score r))
                             (rows_from n (S i) s))) by (rewrite Hf; now left).
      apply filter_In in Hr' as [Hin Hess].
      destruct (rows_from_In _ _ _ _ Hin) as (_ & Hin' & _).
      apply Hx in Hin'. unfold le_score in Hin'. simpl in Hin'.
      apply is_essential_iff in Hess.
      apply not_true_iff_false in Hm. exfalso. apply Hm.
      apply is_essential_iff. eapply Qle_lt_trans; eassumption. }
    rewrite Hnone. simpl. intros [<- | Hr]; simpl.
    + rewrite Hm. split; [discriminate | lia].
    + destruct (rows_from_In _ _ _ _ Hr) as (Hi & Hin & _).
      split; [|lia]. intros Hess. exfalso.
      apply Hx in Hin. unfold le_score in Hin. simpl in Hin.
      apply is_essential_iff in Hess.
      apply not_true_iff_false in Hm. apply Hm.
      apply is_essential_iff. eapply Qle_lt_trans; eassumption.
Qed.

(** X8: the number shown as "essential genes" counts the rows of mean
    score below -0.5, and because the ranking ascends these are exactly
    the rows of the first ranks: a row is essential if and only if its
    rank is at most that number. *)
Theorem essential_genes_rank_first {stats : Statistics} :
  forall sort_values, sort_values_contract sort_values ->
  forall df rk n msg,
    compute_gene_rankings sort_values df = (Some rk, n, msg) ->
    (essential_count rk <= List.length rk)%nat /\
    forall r, In r rk ->
      (mean_score r < - (1 # 2) <-> (rank r <= essential_count rk)%nat).
Proof.
  intros sort_values Hsort df rk n msg Hrun.
  apply compute_gene_rankings_inv in Hrun. subst rk.
  rewrite build_rankings_rows. split.
  - unfold essential_count. apply filter_length_le.
  - intros r Hr. rewrite <- is_essential_iff.
    rewrite (rows_from_essential _ 1 _ (proj2 (Hsort _)) r Hr). lia.
Qed.

Lemma essential_genes_rank_first_witness :
  sort_values_contract sort_keeping_ties /\
  compute_gene_rankings sort_keeping_ties depmap_table
  = (Some depmap_ranking, 11%nat, None) /\
  essential_count depmap_ranking = 1%nat /\
  forall r, In r depmap_ranking ->
    (mean_score r < - (1 # 2) <-> (rank r <= 1)%nat).
Proof.
  assert (Hrun : compute_gene_rankings sort_keeping_ties depmap_table
                 = (Some depmap_ranking, 11%nat, None)) by (vm_compute; reflexivity).
  assert (Hcount : essential_count depmap_ranking = 1%nat) by (vm_compute; reflexivity).
  split; [exact sort_keeping_ties_contract|]. split; [exact Hrun|].
  split; [exact Hcount|].
  intros r Hr. rewrite <- Hcount.
  exact (proj2 (essential_genes_rank_first _ sort_keeping_ties_contract
                  _ _ _ _ Hrun) r Hr).
Defined.

Lemma Qmin_first (x y : Q) : x <= y -> Qmin x y = x.
Proof.
  intros H. unfold Qmin, GenericMinMax.gmin.
  destruct (Qcompare x y) eqn:Hc; try reflexivity.
  exfalso. apply Qgt_alt in Hc. exact (Qlt_not_le _ _ Hc H).
Qed.

Lemma fold_min_first (l : list Q) (x : Q) :
  (forall y, In y l -> x <= y) -> fold_left Qmin l x = x.
Proof.
  induction l as [|y l IH]; simpl; [reflexivity|].
  intros H. rewrite Qmin_first by (apply H; now left).
  apply IH. intros z Hz. apply H. now right.
Qed.

Lemma last_cons {A : Type} (y : A) (l : list A) (d : A) :
  last (y :: l) d = last l y.
Proof.
  revert y d. induction l as [|z l IH]; intros y d; [reflexivity|].
  change (last (y :: z :: l) d) with (last (z :: l) d).
  now rewrite (IH z d), (IH z y).
Qed.

Lemma last_map {A B : Type} (f : A -> B) (l : list A) (d : A) :
  last (map f l) (f d) = f (last l d).
Proof.
  revert d. induction l as [|x l IH]; intros d; [reflexivity|].
  simpl map. now rewrite !last_cons.
Qed.

Lemma last_seq (m a d : nat) : last (seq a (S m)) d = (a + m)%nat.
Proof.
  revert a d. induction m as [|m IH]; intros a d; [simpl; lia|].
  change (seq a (S (S m))) with (a :: seq (S a) (S m)).
  rewrite last_cons, IH. lia.
Qed.

Lemma fold_max_last (l : list Q) (a b : Q) :
  a == b -> StronglySorted Qle (b :: l) -> fold_left Qmax l a == last l b.
Proof.
  revert a b. induction l as [|y l IH]; intros a b Hab Hs; simpl fold_left.
  - exact Hab.
  - rewrite last_cons. inversion Hs as [|? ? Hs' Hb]; subst.
    apply IH; [|exact Hs'].
    apply Q.max_r. rewrite Hab. inversion Hb; subst. assumption.
Qed.

Lemma rows_sorted_by_mean {stats : Statistics} sort_values df rk n msg :
  sort_values_contract sort_values ->
  compute_gene_rankings sort_values df = (Some rk, n, msg) ->
  rk <> [] /\ StronglySorted Qle (map mean_score rk) /\
  map rank rk = seq 1 (List.length rk).
Proof.
  intros Hsort Hrun. pose proof Hrun as Hinv.
  apply compute_gene_rankings_inv in Hinv. subst rk.
  rewrite build_rankings_rows. split; [|split].
  - unfold compute_gene_rankings in Hrun.
    destruct (gene_cols df) as [|c cs] eqn:Hg; [discriminate|].
    intros Hnil. apply (f_equal (@List.length _)) in Hnil.
    rewrite rows_from_length, (Permutation_length (proj1 (Hsort _))) in Hnil.
    discriminate Hnil.
  - pose proof (rows_from_sorted
                  (List.length (sort_values (column_means (gene_cols df)))) 1 _
                  (proj2 (Hsort (column_means (gene_cols df))))) as Hrows.
    induction Hrows as [|r l Hl IH Hr]; simpl; constructor; [exact IH|].
    apply Forall_forall. intros y Hy. apply in_map_iff in Hy as (r' & <- & Hr').
    rewrite Forall_forall in Hr. now destruct (Hr r' Hr').
  - rewrite rows_from_rank, rows_from_length. reflexivity.
Qed.

(** X9: the score range shown under the table header, the least and the
    greatest mean score, is the score of the row of rank 1 and the score
    of the row of the last rank. *)
Theorem score_range_ends {stats : Statistics} :
  forall sort_values, sort_values_contract sort_values ->
  forall df rk n msg,
    compute_gene_rankings sort_values df = (Some rk, n, msg) ->
    exists first rest,
      rk = first :: rest /\
      rank first = 1%nat /\
      rank (last rk first) = List.length rk /\
      series_min (map mean_score rk) = Some (mean_score first) /\
      exists y_max,
        series_max (map mean_score rk) = Some y_max /\
        y_max == mean_score (last rk first).
Proof.
  intros sort_values Hsort df rk n msg Hrun.
  destruct (rows_sorted_by_mean _ _ _ _ _ Hsort Hrun) as (Hne & Hsorted & Hrank).
  destruct rk as [|first rest]; [congruence|].
  exists first, rest. split; [reflexivity|].
  split; [now injection Hrank|]. split.
  - rewrite <- (last_map rank), Hrank. apply last_seq.
  - simpl map in Hsorted. inversion Hsorted as [|? ? Hs' Hfirst]; subst. split.
    + simpl. f_equal. apply fold_min_first.
      now apply Forall_forall.
    + exists (fold_left Qmax (map mean_score rest) (mean_score first)).
      split; [reflexivity|].
      rewrite (fold_max_last _ _ (mean_score first) (Qeq_refl _) Hsorted).
      rewrite (last_map mean_score), last_cons. reflexivity.
Qed.

Lemma score_range_ends_witness :
  sort_values_contract sort_keeping_ties /\
  compute_gene_rankings sort_keeping_ties depmap_table
  = (Some depmap_ranking, 11%nat, None) /\
  exists first rest,
    depmap_ranking = first :: rest /\
    series_min (map mean_score depmap_ranking) = Some (mean_score first).
Proof.
  assert (Hrun : compute_gene_rankings sort_keeping_ties depmap_table
                 = (Some depmap_ranking, 11%nat, None)) by (vm_compute; reflexivity).
  split; [exact sort_keeping_ties_contract|]. split; [exact Hrun|].
  destruct (score_range_ends _ sort_keeping_ties_contract _ _ _ _ Hrun)
    as (first & rest & Hrk & _ & _ & Hmin & _).
  exists first, rest. split; [exact Hrk | exact Hmin].
Defined.

(** ** Matching, continued *)

Lemma filter_none {A : Type} (f : A -> bool) (l : list A) :
  (forall x, In x l -> f x = false) -> filter f l = [].
Proof.
  induction l as [|x l IH]; simpl; [reflexivity|].
  intros H. rewrite (H x) by now left. apply IH. intros y Hy. apply H. now right.
Qed.

(** X10: matching the matched symbols once more finds every one of them
    again: the matched list is the same and nothing is reported as
    missing. *)
Theorem matching_again_finds_all :
  forall rk gene_list,
    Forall (fun r => gene_upper r = upper (gene r)) rk ->
    filter_genes_by_list rk (fst (filter_genes_by_list rk gene_list))
    = (fst (filter_genes_by_list rk gene_list), []).
Proof.
  intros rk gene_list Hwf. rewrite Forall_forall in Hwf.
  unfold filter_genes_by_list. cbn [fst].
  set (mask := fun r => str_in (gene_upper r) (map upper gene_list)).
  set (M := filter mask rk).
  assert (Hsame : filter (fun r => str_in (gene_upper r) (map upper (map gene M))) rk
                  = M).
  { apply filter_ext_in. intros r Hr. apply eq_true_iff_eq.
    rewrite str_in_In, in_map_iff. split.
    - intros (s & Hs & Hin). apply in_map_iff in Hin as (r' & <- & Hr').
      apply filter_In in Hr' as [Hr' Hmask].
      unfold mask in *. now rewrite <- Hs, <- (Hwf r' Hr').
    - intros Hmask. exists (gene r). split; [symmetry; now apply Hwf|].
      apply in_map. apply filter_In. now split. }
  rewrite Hsame. f_equal.
  apply filter_none. intros g Hg. apply negb_false_iff, str_in_In.
  apply in_map_iff in Hg as (r & <- & Hr). apply in_map_iff.
  exists r. split; [|exact Hr].
  apply Hwf. now apply filter_In in Hr as [Hr _].
Qed.

Lemma matching_again_finds_all_witness :
  Forall (fun r => gene_upper r = upper (gene r)) sample_ranking /\
  filter_genes_by_list sample_ranking
    (fst (filter_genes_by_list sample_ranking ["pten"; "Foo"; "myc"]))
  = (fst (filter_genes_by_list sample_ranking ["pten"; "Foo"; "myc"]), []).
Proof.
  assert (Hwf : Forall (fun r => gene_upper r = upper (gene r)) sample_ranking)
    by apply build_rankings_upper.
  split; [exact Hwf | exact (matching_again_finds_all _ _ Hwf)].
Defined.

(** X11: the matched list depends only on the set of upper-cased
    requests: the order of the requests, repetitions among them and
    their letter case make no difference. *)
Theorem matched_ignores_request_form :
  forall rk gene_list1 gene_list2,
    (forall u, In u (map upper gene_list1) <-> In u (map upper gene_list2)) ->
    fst (filter_genes_by_list rk gene_list1)
    = fst (filter_genes_by_list rk gene_list2).
Proof.
  intros rk l1 l2 Hsame. unfold filter_genes_by_list. cbn [fst]. f_equal.
  apply filter_ext. intros r. apply eq_true_iff_eq.
  rewrite !str_in_In. apply Hsame.
Qed.

Lemma matched_ignores_request_form_witness :
  (forall u, In u (map upper ["myc"; "PTEN"; "Myc"]) <->
             In u (map upper ["pten"; "MYC"])) /\
  fst (filter_genes_by_list sample_ranking ["myc"; "PTEN"; "Myc"])
  = fst (filter_genes_by_list sample_ranking ["pten"; "MYC"]).
Proof.
  assert (H : forall u, In u (map upper ["myc"; "PTEN"; "Myc"]) <->
                        In u (map upper ["pten"; "MYC"])).
  { intros u. vm_compute. tauto. }
  split; [exact H | exact (matched_ignores_request_form sample_ranking _ _ H)].
Defined.

(** X12: the rows that the ranking plot highlights, those whose symbol is
    among the matched symbols, are exactly the rows that matched a
    request, and their symbols are the matched list. *)
Theorem highlighted_rows_are_matched_rows :
  forall rk gene_list,
    Forall (fun r => gene_upper r = upper (gene r)) rk ->
    isin_gene rk (fst (filter_genes_by_list rk gene_list))
    = filter (fun r => existsb (ci_eqb (gene r)) gene_list) rk /\
    map gene (isin_gene rk (fst (filter_genes_by_list rk gene_list)))
    = fst (filter_genes_by_list rk gene_list).
Proof.
  intros rk gene_list Hwf. rewrite Forall_forall in Hwf.
  unfold filter_genes_by_list, isin_gene. cbn [fst].
  assert (Hmask : filter (fun r => str_in (gene_upper r) (map upper gene_list)) rk
                  = filter (fun r => existsb (ci_eqb (gene r)) gene_list) rk).
  { apply filter_ext_in. intros r Hr.
    rewrite str_in_map_upper, (Hwf r Hr). reflexivity. }
  rewrite Hmask.
  set (M := filter (fun r => existsb (ci_eqb (gene r)) gene_list) rk).
  assert (Hsel : filter (fun r => str_in (gene r) (map gene M)) rk = M).
  { apply filter_ext_in. intros r Hr. apply eq_true_iff_eq.
    rewrite str_in_In, in_map_iff. split.
    - intros (r' & Hg & Hr'). apply filter_In in Hr' as [_ Hm]. now rewrite <- Hg.
    - intros Hm. exists r. split; [reflexivity|]. apply filter_In. now split. }
  now rewrite Hsel.
Qed.

Lemma highlighted_rows_are_matched_rows_witness :
  Forall (fun r => gene_upper r = upper (gene r)) sample_ranking /\
  map gene (isin_gene sample_ranking
              (fst (filter_genes_by_list sample_ranking ["pten"; "Foo"; "myc"])))
  = fst (filter_genes_by_list sample_ranking ["pten"; "Foo"; "myc"]).
Proof.
  assert (Hwf : Forall (fun r => gene_upper r = upper (gene r)) sample_ranking)
    by apply build_rankings_upper.
  split; [exact Hwf | exact (proj2 (highlighted_rows_are_matched_rows _ _ Hwf))].
Defined.

(** X13: a reference gene is looked up like a one-symbol request: the
    rows marked for it carry the symbols the matcher returns for it, and
    it has no row exactly when the matcher reports it as not found. *)
Theorem reference_rows_agree_with_matcher :
  forall rk reference,
    map gene (reference_rows rk reference)
    = fst (filter_genes_by_list rk [reference]) /\
    (reference_rows rk reference = [] <->
     snd (filter_genes_by_list rk [reference]) = [reference]).
Proof.
  intros rk g. unfold filter_genes_by_list, reference_rows. cbn [fst snd map].
  assert (Hmask : filter (fun r => str_in (gene_upper r) [upper g]) rk
                  = filter (fun r => String.eqb (gene_upper r) (upper g)) rk).
  { apply filter_ext. intros r. unfold str_in. simpl. apply orb_false_r. }
  rewrite Hmask.
  set (M := filter (fun r => String.eqb (gene_upper r) (upper g)) rk).
  split; [reflexivity|]. cbn [filter].
  destruct (str_in (upper g) (map gene_upper M)) eqn:Hin; simpl.
  - split; [|discriminate]. intros HM. rewrite HM in Hin. discriminate.
  - split; [reflexivity|]. intros _.
    destruct M as [|r M'] eqn:HM; [reflexivity|]. exfalso.
    assert (Hr : In r M) by (rewrite HM; now left).
    unfold M in Hr. apply filter_In in Hr as [_ Heq]. apply String.eqb_eq in Heq.
    apply not_true_iff_false in Hin. apply Hin. apply str_in_In.
    simpl. left. exact Heq.
Qed.

Lemma filter_or_perm {A : Type} (f g : A -> bool) (l : list A) :
  (forall x, f x = true -> g x = false) ->
  Permutation (filter f l ++ filter g l) (filter (fun x => f x || g x) l).
Proof.
  intros Hfg. induction l as [|x l IH]; simpl; [constructor|].
  destruct (f x) eqn:Hf; simpl.
  - rewrite (Hfg x Hf). now constructor.
  - destruct (g x); simpl; [|exact IH].
    rewrite <- Permutation_middle. now constructor.
Qed.

Lemma str_in_app (x : string) (l1 l2 : list string) :
  str_in x (l1 ++ l2) = str_in x l1 || str_in x l2.
Proof. unfold str_in. apply existsb_app. Qed.

Lemma str_in_bg_only (x : string) (bg hl : list string) :
  str_in x (bg_only bg hl) = str_in x bg && negb (str_in x hl).
Proof.
  apply eq_true_iff_eq. unfold bg_only.
  rewrite andb_true_iff, !str_in_In, filter_In. reflexivity.
Qed.

(** X14: in the annotation plot no row is drawn in both layers: a gene
    that is highlighted is left out of the background layer, and the two
    layers together hold each row whose symbol is in either list once. *)
Theorem annotation_layers_disjoint :
  forall rk background_genes highlight_genes,
    (forall r, ~ (In r (bg_df rk background_genes highlight_genes) /\
                  In r (hl_df rk highlight_genes))) /\
    Permutation (bg_df rk background_genes highlight_genes
                 ++ hl_df rk highlight_genes)
                (isin_gene rk (background_genes ++ highlight_genes)) /\
    (List.length (bg_df rk background_genes highlight_genes)
     + List.length (hl_df rk highlight_genes)
     = List.length (isin_gene rk (background_genes ++ highlight_genes)))%nat.
Proof.
  intros rk bg hl.
  assert (Hperm : Permutation (bg_df rk bg hl ++ hl_df rk hl)
                              (isin_gene rk (bg ++ hl))).
  { unfold bg_df, hl_df, isin_gene.
    rewrite (filter_ext (fun r => str_in (gene r) (bg ++ hl))
               (fun r => str_in (gene r) (bg_only bg hl) || str_in (gene r) hl)).
    - apply filter_or_perm. intros r Hr. rewrite str_in_bg_only in Hr.
      apply andb_true_iff in Hr as [_ Hr]. now apply negb_true_iff.
    - intros r. rewrite str_in_app, str_in_bg_only.
      destruct (str_in (gene r) bg), (str_in (gene r) hl); reflexivity. }
  split; [|split; [exact Hperm|]].
  - intros r [Hb Hh]. unfold bg_df, hl_df, isin_gene in *.
    apply filter_In in Hb as [_ Hb]. apply filter_In in Hh as [_ Hh].
    rewrite str_in_bg_only, Hh, andb_false_r in Hb. discriminate.
  - rewrite <- (Permutation_length Hperm). apply eq_sym, length_app.
Qed.

(** ** Lineage reshaping, continued *)

Lemma find_first_iff {A : Type} (f : A -> bool) (l : list A) :
  find f l = None <-> forall x, In x l -> f x = false.
Proof.
  split; [apply find_none|].
  intros H. destruct (find f l) as [x|] eqn:Hf; [|reflexivity].
  apply find_some in Hf as [Hin Hx]. rewrite (H x Hin) in Hx. discriminate.
Qed.

(** X15: in the dict of upper-cased column names a key finds a column
    exactly when some column has that upper-cased name, and among
    several such columns it finds the last one. *)
Theorem df_cols_upper_lookup :
  forall cols k,
    (dict_get k (df_cols_upper cols) = None <->
     forall c, In c cols -> upper c <> k) /\
    (forall c,
        dict_get k (df_cols_upper cols) = Some c <->
        exists pre post, cols = pre ++ c :: post /\ upper c = k /\
                         forall x, In x post -> upper x <> k).
Proof.
  intros cols k. rewrite cols_upper_get. split.
  - rewrite find_first_iff. split.
    + intros H c Hc Heq. apply in_rev in Hc. specialize (H c Hc).
      simpl in H. rewrite Heq, String.eqb_refl in H. discriminate.
    + intros H c Hc. apply in_rev in Hc. apply String.eqb_neq.
      intros Heq. now apply (H c Hc).
  - intros c. rewrite find_first_spec. split.
    + intros (pre & post & Hrev & Hc & Hpre).
      exists (rev post), (rev pre). split; [|split].
      * rewrite <- (rev_involutive cols), Hrev, rev_app_distr. simpl.
        now rewrite <- app_assoc.
      * apply String.eqb_eq in Hc. now symmetry.
      * intros x Hx Heq. apply in_rev in Hx. specialize (Hpre x Hx).
        simpl in Hpre. rewrite Heq, String.eqb_refl in Hpre. discriminate.
    + intros (pre & post & -> & Hc & Hpost).
      exists (rev post), (rev pre). split; [|split].
      * rewrite rev_app_distr. simpl. now rewrite <- app_assoc.
      * rewrite Hc. apply String.eqb_refl.
      * intros x Hx. apply in_rev in Hx. apply String.eqb_neq.
        intros Heq. now apply (Hpost x Hx).
Qed.

(** X16: every record the aggregator returns belongs to a column of the
    table that a requested symbol names up to letter case, and it pairs
    the lineage and the score of one and the same row of the table. *)
Theorem lineage_records_pair_rows :
  forall df genes recs,
    get_lineage_data df genes = Some recs ->
    exists lineage_col,
      find_lineage_col (columns df) = Some lineage_col /\
      forall rec, In rec recs ->
        In (lr_gene rec) (columns df) /\
        (exists g, In g genes /\ upper g = upper (lr_gene rec)) /\
        exists l s i,
          getitem df lineage_col = Some l /\
          getitem df (lr_gene rec) = Some s /\
          nth_error (cells l) i = Some (lineage rec) /\
          nth_error (cells s) i = Some (crispr_score rec).
Proof. exact lineage_data_some_inv. Qed.

Lemma lineage_records_pair_rows_witness :
  exists recs,
    get_lineage_data depmap_table ["pten"] = Some recs /\
    forall rec, In rec recs -> In (lr_gene rec) (columns depmap_table).
Proof.
  destruct (get_lineage_data depmap_table ["pten"]) as [recs|] eqn:Hrun.
  - exists recs. split; [reflexivity|].
    destruct (lineage_records_pair_rows _ _ _ Hrun) as (lc & _ & H).
    intros rec Hrec. exact (proj1 (H rec Hrec)).
  - vm_compute in Hrun. discriminate Hrun.
Defined.

Lemma getitem_in (df : DataFrame) (name : string) :
  In name (columns df) ->
  exists c, In c (df_columns df) /\ col_name c = name /\
            getitem df name = Some (col_data c).
Proof.
  intros Hin. unfold getitem.
  destruct (find (fun c => String.eqb (col_name c) name) (df_columns df))
    as [c|] eqn:Hf.
  - apply find_some in Hf as [Hc Heq]. apply String.eqb_eq in Heq.
    now exists c.
  - unfold columns in Hin. apply in_map_iff in Hin as (c & Hname & Hc).
    apply (find_none _ _ Hf) in Hc. simpl in Hc.
    rewrite Hname, String.eqb_refl in Hc. discriminate.
Qed.

Lemma lineage_frame_length (df : DataFrame) (lineage_col gene : string) :
  table_ok df -> In lineage_col (columns df) -> In gene (columns df) ->
  List.length (lineage_frame df lineage_col gene) = df_len df.
Proof.
  intros Hok Hl Hg. unfold table_ok in Hok. rewrite Forall_forall in Hok.
  destruct (getitem_in df _ Hl) as (cl & Hcl & _ & Hgl).
  destruct (getitem_in df _ Hg) as (cg & Hcg & _ & Hgg).
  unfold lineage_frame. rewrite Hgl, Hgg.
  rewrite length_map, length_combine, (Hok cl Hcl), (Hok cg Hcg).
  apply Nat.min_id.
Qed.

Lemma find_lineage_col_in (cols : list string) (c : string) :
  find_lineage_col cols = Some c -> In c cols.
Proof. intros H. now apply find_some in H as [H _]. Qed.

Lemma length_concat_const {A : Type} (ls : list (list A)) (k : nat) :
  (forall l, In l ls -> List.length l = k) ->
  List.length (List.concat ls) = (List.length ls * k)%nat.
Proof.
  induction ls as [|l ls IH]; simpl; [reflexivity|].
  intros H. rewrite length_app, (H l) by now left.
  rewrite IH; [reflexivity|]. intros l' Hl'. apply H. now right.
Qed.

(** X17: on a table whose columns all have one cell per row, when there
    is a lineage column and every requested symbol is a column name up
    to letter case, the aggregator returns one record per requested
    symbol and row: their number is the number of requests times the
    number of rows (a symbol requested twice is emitted twice). *)
Theorem lineage_data_row_count :
  forall df genes lineage_col,
    table_ok df ->
    find_lineage_col (columns df) = Some lineage_col ->
    genes <> [] ->
    (forall g, In g genes -> exists c, In c (columns df) /\ upper c = upper g) ->
    exists recs,
      get_lineage_data df genes = Some recs /\
      List.length recs = (List.length genes * df_len df)%nat.
Proof.
  intros df genes lc Hok Hlin Hne Hall.
  rewrite (lineage_data_for_column_names df genes lc Hlin Hne Hall).
  eexists. split; [reflexivity|].
  rewrite (length_concat_const _ (df_len df)); [now rewrite length_map|].
  intros fr Hfr. apply in_map_iff in Hfr as (g & <- & Hg).
  apply lineage_frame_length; [exact Hok | now apply find_lineage_col_in|].
  destruct (cols_upper_hit g (columns df) (Hall g Hg)) as (c & Hget & Hin & _).
  unfold dict_get_default. now rewrite Hget.
Qed.

Lemma depmap_table_ok : table_ok depmap_table.
Proof. repeat constructor. Qed.

Lemma lineage_data_row_count_witness :
  table_ok depmap_table /\
  find_lineage_col (columns depmap_table) = Some "Lineage" /\
  exists recs,
    get_lineage_data depmap_table ["PTEN"; "pten"; "MYC (4609)"] = Some recs /\
    List.length recs = 33%nat.
Proof.
  assert (Hlin : find_lineage_col (columns depmap_table) = Some "Lineage")
    by reflexivity.
  assert (Hne : ["PTEN"; "pten"; "MYC (4609)"] <> []) by discriminate.
  assert (Hall : forall g, In g ["PTEN"; "pten"; "MYC (4609)"] ->
            exists c, In c (columns depmap_table) /\ upper c = upper g).
  { intros g [<- | [<- | [<- | []]]].
    - exists "PTEN". split; [vm_compute; auto | reflexivity].
    - exists "PTEN". split; [vm_compute; auto | reflexivity].
    - exists "MYC (4609)". split; [vm_compute; auto | reflexivity]. }
  split; [exact depmap_table_ok|]. split; [exact Hlin|].
  exact (lineage_data_row_count _ _ _ depmap_table_ok Hlin Hne Hall).
Defined.

Lemma upper_char_token (c : ascii) : is_token_char (upper_char c) = is_token_char c.
Proof. destruct c as [[] [] [] [] [] [] [] []]; vm_compute; reflexivity. Qed.

Lemma upper_token (s : string) :
  all_chars is_token_char (upper s) = all_chars is_token_char s.
Proof.
  unfold upper. rewrite all_chars_map_chars.
  induction s as [|c s IH]; simpl; [reflexivity|].
  now rewrite upper_char_token, IH.
Qed.

Lemma pattern_not_token (col tok : string) :
  re_gene_pattern col tok -> all_chars is_token_char col = false.
Proof.
  intros (ws & rest & -> & _). rewrite !all_chars_app.
  change (all_chars is_token_char (String "(" rest))
    with (is_token_char "(" && all_chars is_token_char rest).
  change (is_token_char "(") with false.
  now rewrite andb_false_l, !andb_false_r.
Qed.

Lemma pattern_token (col tok : string) :
  re_gene_pattern col tok -> all_chars is_token_char tok = true.
Proof. now intros (ws & rest & _ & _ & H & _). Qed.

(** X18: on a table whose score columns are all named "SYMBOL (ID)" and
    whose metadata columns are not named like one of the symbols, the
    aggregator returns no data for the matches of any request, nor for
    any selection of them (such as the first eight): the symbols shown
    in the ranking never name a column. *)
Theorem symbol_columns_give_no_lineage_data {stats : Statistics} :
  forall sort_values, sort_values_contract sort_values ->
  forall df rk n msg gene_list genes,
    compute_gene_rankings sort_values df = (Some rk, n, msg) ->
    (forall c, In c (gene_cols df) -> exists tok, re_gene_pattern (col_name c) tok) ->
    (forall c g, In c (meta_cols df) -> In g (gene_cols df) ->
                 upper (col_name c) <> upper (extract_gene_name (col_name g))) ->
    incl genes (fst (filter_genes_by_list rk gene_list)) ->
    get_lineage_data df genes = None.
Proof.
  intros sort_values Hsort df rk n msg gl genes Hrun Hpat Hmeta Hincl.
  assert (Hno : forall g c, In g genes -> In c (columns df) -> upper g <> upper c).
  { intros g c Hg Hc. apply Hincl in Hg.
    unfold filter_genes_by_list in Hg. cbn [fst] in Hg.
    apply in_map_iff in Hg as (r & <- & Hr). apply filter_In in Hr as [Hr _].
    destruct (ranking_row_source _ _ _ _ _ _ Hsort Hrun Hr) as (cg & Hcg & Hraw & _).
    pose proof Hr as Hrow.
    rewrite (compute_gene_rankings_inv _ _ _ _ _ Hrun), build_rankings_rows in Hrow.
    destruct (rows_from_In _ _ _ _ Hrow) as (_ & _ & Hgene & _).
    rewrite Hgene, Hraw.
    unfold columns in Hc. apply in_map_iff in Hc as (cc & <- & Hcc).
    destruct (is_gene_col (col_data cc)) eqn:Hcls.
    - assert (Hccg : In cc (gene_cols df))
        by (apply (proj1 (classify_columns_spec _ cc)); now split).
      destruct (Hpat cg Hcg) as [tok Htok]. destruct (Hpat cc Hccg) as [tok' Htok'].
      rewrite (extract_of_pattern _ _ Htok). intros Heq.
      apply (f_equal (all_chars is_token_char)) in Heq.
      rewrite !upper_token, (pattern_token _ _ Htok),
        (pattern_not_token _ _ Htok') in Heq.
      discriminate.
    - assert (Hccm : In cc (meta_cols df))
        by (apply (proj2 (classify_columns_spec _ cc)); now split).
      intros Heq. now apply (Hmeta cc cg Hccm Hcg). }
  unfold get_lineage_data.
  destruct (find_lineage_col (columns df)); [|reflexivity].
  assert (Hnone : filter (fun g => dict_mem (upper g) (df_cols_upper (columns df)))
                         genes = []).
  { apply filter_none. intros g Hg. apply cols_upper_miss.
    intros c Hc. now apply Hno. }
  now rewrite Hnone.
Qed.

Lemma firstn_incl {A : Type} (k : nat) (l : list A) : incl (firstn k l) l.
Proof.
  revert k. induction l as [|x l IH]; intros [|k] y Hy; simpl in Hy;
    try (now destruct Hy).
  destruct Hy as [<- | Hy]; [now left | right; exact (IH k y Hy)].
Qed.

Lemma symbol_columns_give_no_lineage_data_witness :
  get_lineage_data symbol_table
    (firstn 8 (fst (filter_genes_by_list symbol_ranking ["myc"; "tp53"]))) = None.
Proof.
  assert (Hrun : compute_gene_rankings sort_keeping_ties symbol_table
                 = (Some symbol_ranking, 11%nat, None))
    by (vm_compute; reflexivity).
  assert (Hg : gene_cols symbol_table
               = [mkColumn "TP53 (7157)" (nums pten_scores);
                  mkColumn "MYC (4609)" (nums myc_scores)])
    by (vm_compute; reflexivity).
  assert (Hm : meta_cols symbol_table = [mkColumn "Lineage" (labels tissue)])
    by (vm_compute; reflexivity).
  assert (Hpat : forall c, In c (gene_cols symbol_table) ->
                           exists tok, re_gene_pattern (col_name c) tok).
  { rewrite Hg. intros c [<- | [<- | []]].
    - exists "TP53", " ", "7157)".
      split; [reflexivity|]. split; [discriminate|]. split; reflexivity.
    - exists "MYC", " ", "4609)".
      split; [reflexivity|]. split; [discriminate|]. split; reflexivity. }
  assert (Hmeta : forall c g, In c (meta_cols symbol_table) ->
                              In g (gene_cols symbol_table) ->
            upper (col_name c) <> upper (extract_gene_name (col_name g))).
  { rewrite Hg, Hm. intros c g [<- | []] [<- | [<- | []]];
      vm_compute; discriminate. }
  exact (symbol_columns_give_no_lineage_data _ sort_keeping_ties_contract
           symbol_table symbol_ranking 11%nat None ["myc"; "tp53"] _
           Hrun Hpat Hmeta (firstn_incl 8 _)).
Defined.

Lemma NoDup_map_inj {A B : Type} (f : A -> B) (l : list A) (a b : A) :
  NoDup (map f l) -> In a l -> In b l -> f a = f b -> a = b.
Proof.
  induction l as [|x l IH]; simpl; [intros _ []|].
  intros Hnd Ha Hb Heq. inversion Hnd as [|? ? Hx Hnd']; subst.
  destruct Ha as [-> | Ha], Hb as [-> | Hb]; auto.
  - exfalso. apply Hx. rewrite Heq. now apply in_map.
  - exfalso. apply Hx. rewrite <- Heq. now apply in_map.
Qed.

Lemma gene_data_frame (df : DataFrame) (lineage_col gene g : string) :
  gene_data (lineage_frame df lineage_col gene) g
  = if String.eqb gene g then lineage_frame df lineage_col gene else [].
Proof.
  unfold gene_data.
  destruct (String.eqb_spec gene g) as [-> | Hne].
  - apply forallb_filter_id. apply forallb_forall. intros rec Hrec.
    apply lineage_frame_In in Hrec as [-> _]. apply String.eqb_refl.
  - apply filter_none. intros rec Hrec.
    apply lineage_frame_In in Hrec as [-> _]. now apply String.eqb_neq.
Qed.

Lemma gene_data_concat (df : DataFrame) (lineage_col g : string)
    (names : list string) :
  NoDup names ->
  gene_data (List.concat (map (lineage_frame df lineage_col) names)) g
  = if str_in g names then lineage_frame df lineage_col g else [].
Proof.
  unfold gene_data. induction names as [|x names IH]; intros Hnd; [reflexivity|].
  inversion Hnd as [|? ? Hx Hnd']; subst. simpl map. simpl List.concat.
  rewrite filter_app. fold (gene_data (lineage_frame df lineage_col x) g).
  rewrite gene_data_frame, (IH Hnd'). unfold str_in. simpl existsb.
  rewrite (String.eqb_sym g x).
  destruct (String.eqb_spec x g) as [-> | Hne]; simpl.
  - fold (str_in g names).
    destruct (str_in g names) eqn:Hin; [|apply app_nil_r].
    apply str_in_In in Hin. contradiction.
  - reflexivity.
Qed.

(** X19: when the column names differ also after upper-casing and the
    requested symbols are distinct column names, each panel of the box
    plot, which picks the records of one symbol out of the aggregator's
    result, holds exactly the rows of that symbol's column, in row
    order. *)
Theorem boxplot_panel_is_gene_frame :
  forall df genes lineage_col recs g,
    NoDup (map upper (columns df)) ->
    NoDup genes ->
    (forall x, In x genes -> In x (columns df)) ->
    find_lineage_col (columns df) = Some lineage_col ->
    get_lineage_data df genes = Some recs ->
    In g genes ->
    gene_data recs g = lineage_frame df lineage_col g.
Proof.
  intros df genes lc recs g Hup Hnd Hcols Hlin Hrun Hg.
  assert (Hne : genes <> []) by (intros ->; destruct Hg).
  assert (Hall : forall x, In x genes ->
            exists c, In c (columns df) /\ upper c = upper x)
    by (intros x Hx; exists x; auto).
  rewrite (lineage_data_for_column_names df genes lc Hlin Hne Hall) in Hrun.
  injection Hrun as <-.
  assert (Hres : map (fun x => lineage_frame df lc
                        (dict_get_default (upper x) x (df_cols_upper (columns df))))
                     genes
                 = map (lineage_frame df lc) genes).
  { apply map_ext_in. intros x Hx. f_equal.
    destruct (cols_upper_hit x (columns df) (Hall x Hx)) as (c & Hget & Hin & Heq).
    unfold dict_get_default. rewrite Hget.
    exact (NoDup_map_inj upper _ _ _ Hup Hin (Hcols x Hx) Heq). }
  rewrite Hres, (gene_data_concat df lc g genes Hnd).
  now rewrite (proj2 (str_in_In g genes) Hg).
Qed.

Lemma boxplot_panel_is_gene_frame_witness :
  exists recs,
    get_lineage_data depmap_table ["PTEN"; "MYC (4609)"] = Some recs /\
    gene_data recs "PTEN" = lineage_frame depmap_table "Lineage" "PTEN".
Proof.
  assert (Hup : NoDup (map upper (columns depmap_table))).
  { vm_compute. repeat constructor; simpl; intuition discriminate. }
  assert (Hnd : NoDup ["PTEN"; "MYC (4609)"]).
  { repeat constructor; simpl; intuition discriminate. }
  assert (Hcols : forall x, In x ["PTEN"; "MYC (4609)"] -> In x (columns depmap_table)).
  { intros x [<- | [<- | []]]; vm_compute; auto. }
  assert (Hlin : find_lineage_col (columns depmap_table) = Some "Lineage")
    by reflexivity.
  destruct (get_lineage_data depmap_table ["PTEN"; "MYC (4609)"]) as [recs|] eqn:Hrun.
  - exists recs. split; [reflexivity|].
    apply (boxplot_panel_is_gene_frame _ _ _ _ _ Hup Hnd Hcols Hlin Hrun).
    now left.
  - vm_compute in Hrun. discriminate Hrun.
Defined.
